(** * Shallow embedding of [ome_zarr/bdvh5.py] (class [BigDataViewerHDF5])

    The BigDataViewer HDF5 container is modelled as a tree of named groups
    and datasets; the destination zarr store as a root-group flag and a
    table of arrays named by resolution level.  Every fallible Python step
    returns a [result]; [to_zarr], which mutates the destination store,
    runs in a state-and-error monad over the store, so a failure keeps the
    store as it was when the error was raised (no rollback). *)

From Stdlib Require Import List String ZArith Lia Bool Arith.
From Stdlib Require Import DecimalString.
Import ListNotations.

Open Scope string_scope.
Open Scope list_scope.
#[local] Set Warnings "-register-all".

(** ** Python errors raised on the paths of the module *)
Inductive py_error :=
| KeyError            (** dict / h5py group lookup of a missing name *)
| IndexError          (** tuple / list position out of range *)
| TypeError           (** [len] of a 0-d array, [*None] unpacking *)
| ValueError          (** field-name indexing of a dataset, bad broadcast *)
| AttributeError      (** [.shape] / [.chunks] of an h5py group *)
| ContainsArrayError. (** zarr: an array already exists at the path *)

Inductive result (A : Type) :=
| Ok (a : A)
| Err (e : py_error).
Arguments Ok {A} a.
Arguments Err {A} e.

Definition rbind {A B} (m : result A) (k : A -> result B) : result B :=
  match m with Ok a => k a | Err e => Err e end.

Notation "x <- m ;; k" := (rbind m (fun x => k))
  (at level 61, m at next level, right associativity).

(** [[g x for x in l]] where [g] may raise: the first error wins. *)
Fixpoint mapM {A B} (g : A -> result B) (l : list A) : result (list B) :=
  match l with
  | [] => Ok []
  | a :: l' => b <- g a ;; bs <- mapM g l' ;; Ok (b :: bs)
  end.

(** ** n-dimensional arrays (numpy / h5py data) *)
Inductive ndarray :=
| NScalar (v : Z)
| NArr (items : list ndarray).

(** [len(a)]: the size of the first axis; a 0-d array raises TypeError. *)
Definition nd_len (a : ndarray) : result nat :=
  match a with
  | NArr l => Ok (List.length l)
  | NScalar _ => Err TypeError
  end.

(** A Python [slice(start, stop)] with step 1. *)
Record pyslice := { sl_start : option Z; sl_stop : option Z }.

Definition full_slice : pyslice := {| sl_start := None; sl_stop := None |}.

(** One bound of [slice.indices(n)] for step 1. *)
Definition clamp_bound (n : Z) (b : option Z) (dflt : Z) : Z :=
  match b with
  | None => dflt
  | Some v => if (v <? 0)%Z then Z.max 0 (v + n) else Z.min v n
  end.

Definition slice_list {A} (s : pyslice) (l : list A) : list A :=
  let n := Z.of_nat (List.length l) in
  let lo := clamp_bound n (sl_start s) 0%Z in
  let hi := clamp_bound n (sl_stop s) n in
  firstn (Z.to_nat (hi - lo)) (skipn (Z.to_nat lo) l).

(** [a[s1, s2, ...]]: slice the leading axes; too many indices for the
    rank raises IndexError. *)
Fixpoint nd_slice (ss : list pyslice) (a : ndarray) : result ndarray :=
  match ss with
  | [] => Ok a
  | s :: ss' =>
      match a with
      | NScalar _ => Err IndexError
      | NArr l => items <- mapM (nd_slice ss') (slice_list s l) ;; Ok (NArr items)
      end
  end.

(** ** The HDF5 container *)

(** An h5py Dataset: its metadata [shape] and [chunks] ([None] for a
    contiguous layout) and its contents. *)
Record h5ds := {
  ds_shape : list nat;
  ds_chunks : option (list nat);
  ds_data : ndarray
}.

Inductive h5node :=
| H5Group (children : list (string * h5node))
| H5Dataset (d : h5ds).

(** The opened file [self.h5]: the children of the root group, in the
    order [h5.keys()] enumerates them. *)
Definition h5file := list (string * h5node).

Fixpoint assoc {A} (k : string) (l : list (string * A)) : option A :=
  match l with
  | [] => None
  | (k', v) :: l' => if String.eqb k k' then Some v else assoc k l'
  end.

(** Python [d[k]] on a dict: KeyError when absent. *)
Definition dict_get {A} (l : list (string * A)) (k : string) : result A :=
  match assoc k l with Some v => Ok v | None => Err KeyError end.

(** [node[name]] in h5py: member lookup in a group; a string index into a
    (non-compound) dataset raises ValueError. *)
Definition h5_get (n : h5node) (name : string) : result h5node :=
  match n with
  | H5Group ch => dict_get ch name
  | H5Dataset _ => Err ValueError
  end.

Definition h5_root (f : h5file) : h5node := H5Group f.

Definition h5_keys (f : h5file) : list string := map fst f.

(** [str(i)] for a non-negative int. *)
Definition str_of_nat (i : nat) : string :=
  NilZero.string_of_uint (Nat.to_uint i).

(** [node[z, y, x]]: reading a slice of a dataset; a group cannot be
    sliced. *)
Definition node_slice (n : h5node) (z y x : pyslice) : result ndarray :=
  match n with
  | H5Dataset d => nd_slice [z; y; x] (ds_data d)
  | H5Group _ => Err TypeError
  end.

(** [node[:]]: reading a whole dataset. *)
Definition node_read (n : h5node) : result ndarray :=
  match n with
  | H5Dataset d => Ok (ds_data d)
  | H5Group _ => Err TypeError
  end.

(** Python sequence indexing [seq[i]]: negative positions count from the
    end, anything outside [-len, len) raises IndexError. *)
Definition py_index {A} (l : list A) (i : Z) : result A :=
  let n := Z.of_nat (List.length l) in
  let j := if (i <? 0)%Z then (n + i)%Z else i in
  if ((j <? 0) || (n <=? j))%Z then Err IndexError
  else match nth_error l (Z.to_nat j) with
       | Some v => Ok v
       | None => Err IndexError
       end.

(** ** Properties of [BigDataViewerHDF5] *)

(** [channel_keys]: top-level names starting with ['s']. *)
Definition channel_keys (f : h5file) : list string :=
  filter (fun s => String.prefix "s" s) (h5_keys f).

(** [tseries_keys]: top-level names starting with ['t']. *)
Definition tseries_keys (f : h5file) : list string :=
  filter (fun s => String.prefix "t" s) (h5_keys f).

Definition num_channels (f : h5file) : nat := List.length (channel_keys f).
Definition num_tseries (f : h5file) : nat := List.length (tseries_keys f).

(** [scales]: [dict((c, self.h5[c]['resolutions'][:]) for c in channel_keys)]. *)
Definition scales (f : h5file) : result (list (string * ndarray)) :=
  mapM (fun c =>
          g <- h5_get (h5_root f) c ;;
          r <- h5_get g "resolutions" ;;
          v <- node_read r ;;
          Ok (c, v))
       (channel_keys f).

(** [chunk_sizes]: [dict((c, self.h5[c]['subdivisions'][:]) for c in channel_keys)]. *)
Definition chunk_sizes (f : h5file) : result (list (string * ndarray)) :=
  mapM (fun c =>
          g <- h5_get (h5_root f) c ;;
          r <- h5_get g "subdivisions" ;;
          v <- node_read r ;;
          Ok (c, v))
       (channel_keys f).

(** [len(set(lengths)) == 1]. *)
Definition set_size (l : list nat) : nat := List.length (nodup Nat.eq_dec l).

(** [multiscales]:
<<
    lengths = [len(_v) for _v in self.scales.values()]
    if len(set(lengths)) == 1:
        return list(range(lengths[0]))
    return lengths
>> *)
Definition multiscales (f : h5file) : result (list nat) :=
  s <- scales f ;;
  lengths <- mapM (fun kv => nd_len (snd kv)) s ;;
  if Nat.eqb (set_size lengths) 1
  then (l0 <- py_index lengths 0 ;; Ok (seq 0 l0))
  else Ok lengths.

(** The level count of one channel: [len(self.scales[_ch])]. *)
Definition channel_levels (f : h5file) (ch : string) : result nat :=
  s <- scales f ;;
  v <- dict_get s ch ;;
  nd_len v.

(** [arrays]:
<<
    for _ts in self.tseries_keys:
        for _ch in self.channel_keys:
            _arrays[_ts][_ch] = [
                self.h5[_ts][_ch][str(i)]['cells']
                for i in range(len(self.scales[_ch]))]
>>
    The inner dicts are association lists in key order. *)
Definition arrays (f : h5file)
  : result (list (string * list (string * list h5node))) :=
  mapM (fun ts =>
          row <- mapM (fun ch =>
                         n <- channel_levels f ch ;;
                         lv <- mapM (fun i =>
                                       g <- h5_get (h5_root f) ts ;;
                                       g <- h5_get g ch ;;
                                       g <- h5_get g (str_of_nat i) ;;
                                       h5_get g "cells")
                                    (seq 0 n) ;;
                         Ok (ch, lv))
                      (channel_keys f) ;;
          Ok (ts, row))
       (tseries_keys f).

(** [__getitem__((res, t, ch, z, y, x))]:
<<
    t = self.tseries_keys[t]
    ch = self.channel_keys[ch]
    arrays = self.arrays[t][ch][res][z, y, x]
>> *)
Definition getitem (f : h5file) (res t ch : Z) (z y x : pyslice)
  : result ndarray :=
  tk <- py_index (tseries_keys f) t ;;
  ck <- py_index (channel_keys f) ch ;;
  A <- arrays f ;;
  row <- dict_get A tk ;;
  lv <- dict_get row ck ;;
  d <- py_index lv res ;;
  node_slice d z y x.

(** Reading the source directly: [h5['<t>/<ch>/<level>/cells'][z, y, x]]. *)
Definition h5_cells (f : h5file) (tk ck : string) (lvl : nat)
  : result h5node :=
  g <- h5_get (h5_root f) tk ;;
  g <- h5_get g ck ;;
  g <- h5_get g (str_of_nat lvl) ;;
  h5_get g "cells".

Definition direct_read (f : h5file) (tk ck : string) (lvl : nat)
  (z y x : pyslice) : result ndarray :=
  d <- h5_cells f tk ck lvl ;;
  node_slice d z y x.

(** ** The destination zarr store *)

(** A zarr array: shape, chunk shape and, for each (t, c) position of the
    two outer axes, the spatial block written there ([None]: never written,
    fill value). *)
Record zarray := {
  za_shape : list nat;
  za_chunks : list nat;
  za_data : list (list (option ndarray))
}.

(** The store: whether the root group exists, and the arrays of the root
    group by name ([root.empty_like(i, ...)] names the array [str(i)], here
    the level [i] itself). *)
Record store := {
  st_group : bool;
  st_arrays : list (nat * zarray)
}.

Fixpoint lookup_arr (i : nat) (l : list (nat * zarray)) : option zarray :=
  match l with
  | [] => None
  | (j, a) :: l' => if Nat.eqb i j then Some a else lookup_arr i l'
  end.

Fixpoint replace_arr (i : nat) (a : zarray) (l : list (nat * zarray))
  : list (nat * zarray) :=
  match l with
  | [] => []
  | (j, b) :: l' =>
      if Nat.eqb i j then (j, a) :: l' else (j, b) :: replace_arr i a l'
  end.

(** [l[n] = v] on a list of known length. *)
Fixpoint list_set {A} (l : list A) (n : nat) (v : A) : list A :=
  match l, n with
  | [], _ => []
  | _ :: l', 0 => v :: l'
  | x :: l', S n' => x :: list_set l' n' v
  end.

(** State-and-error monad over the store. *)
Definition M (A : Type) := store -> result A * store.

Definition mret {A} (a : A) : M A := fun st => (Ok a, st).

Definition mbind {A B} (m : M A) (k : A -> M B) : M B :=
  fun st => match m st with
            | (Ok a, st') => k a st'
            | (Err e, st') => (Err e, st')
            end.

Definition lift {A} (r : result A) : M A :=
  fun st => match r with Ok a => (Ok a, st) | Err e => (Err e, st) end.

Notation "'let*' x := m 'in' k" := (mbind m (fun x => k))
  (at level 200, x name, m at level 100, k at level 200).

(** [for x in l: body(x)]. *)
Fixpoint forM {A} (l : list A) (body : A -> M unit) : M unit :=
  match l with
  | [] => mret tt
  | a :: l' => let* _u := body a in forM l' body
  end.

(** [zarr.group(store=filename, overwrite=overwrite)]: with [overwrite]
    the store is cleared and a fresh root group written; otherwise an
    existing group is opened as it is, and a missing one is created
    without touching the arrays already there. *)
Definition zarr_group (overwrite : bool) : M unit :=
  fun st =>
    if overwrite then (Ok tt, {| st_group := true; st_arrays := [] |})
    else if st_group st then (Ok tt, st)
    else (Ok tt, {| st_group := true; st_arrays := st_arrays st |}).

(** [root.empty_like(i, dset, shape=..., chunks=...)]: zarr's [create] with
    its default [overwrite=False] raises ContainsArrayError when an array
    is already stored under the name. *)
Definition empty_like (i : nat) (shape chunks : list nat) : M unit :=
  fun st =>
    match lookup_arr i (st_arrays st) with
    | Some _ => (Err ContainsArrayError, st)
    | None =>
        let a := {| za_shape := shape; za_chunks := chunks;
                    za_data := repeat (repeat None (nth 1 shape 0)) (nth 0 shape 0) |} in
        (Ok tt, {| st_group := st_group st; st_arrays := (i, a) :: st_arrays st |})
    end.

(** [_arr[t, c, :] = d]: the dataset is read and stored in block (t, c);
    a block of another spatial shape is refused (ValueError), a position
    outside the outer axes raises IndexError. *)
Definition write_slice (i t c : nat) (d : h5ds) : M unit :=
  fun st =>
    match lookup_arr i (st_arrays st) with
    | None => (Err KeyError, st)
    | Some a =>
        if negb (Nat.ltb t (nth 0 (za_shape a) 0) && Nat.ltb c (nth 1 (za_shape a) 0))
        then (Err IndexError, st)
        else if list_eq_dec Nat.eq_dec (skipn 2 (za_shape a)) (ds_shape d)
        then
          let row := nth t (za_data a) [] in
          let a' := {| za_shape := za_shape a; za_chunks := za_chunks a;
                       za_data := list_set (za_data a) t (list_set row c (Some (ds_data d))) |} in
          (Ok tt, {| st_group := st_group st;
                     st_arrays := replace_arr i a' (st_arrays st) |})
        else (Err ValueError, st)
    end.

(** [dset.shape] / [dset.chunks] need an h5py Dataset. *)
Definition node_dataset (n : h5node) : result h5ds :=
  match n with
  | H5Dataset d => Ok d
  | H5Group _ => Err AttributeError
  end.

(** [(1, 1, *dset.chunks)]: unpacking [None] raises TypeError. *)
Definition unpack_chunks (c : option (list nat)) : result (list nat) :=
  match c with
  | Some l => Ok l
  | None => Err TypeError
  end.

(** [to_zarr(filename, overwrite)]:
<<
    root = zarr.group(store=filename, overwrite=overwrite)
    for i in self.multiscales:
        dset = self.arrays[self.tseries_keys[0]][self.channel_keys[0]][i]
        new_shape = (len(self.tseries_keys), len(self.channel_keys), *dset.shape)
        new_chunks = (1, 1, *dset.chunks)
        _arr = root.empty_like(i, dset, shape=new_shape, chunks=new_chunks)
        for _t in range(len(self.tseries_keys)):
            for _ch in range(len(self.channel_keys)):
                _arr[_t, _ch, :] = dset
>>
    [level_body f i] is one iteration of the [for i in self.multiscales]
    loop. *)
Definition level_body (f : h5file) (i : nat) : M unit :=
  let* A := lift (arrays f) in
  let* tk0 := lift (py_index (tseries_keys f) 0) in
  let* row := lift (dict_get A tk0) in
  let* ck0 := lift (py_index (channel_keys f) 0) in
  let* lv := lift (dict_get row ck0) in
  let* dn := lift (py_index lv (Z.of_nat i)) in
  let* dset := lift (node_dataset dn) in
  let new_shape := num_tseries f :: num_channels f :: ds_shape dset in
  let* ch := lift (unpack_chunks (ds_chunks dset)) in
  let* _e := empty_like i new_shape (1 :: 1 :: ch) in
  forM (seq 0 (num_tseries f)) (fun t =>
    forM (seq 0 (num_channels f)) (fun c =>
      write_slice i t c dset)).

Definition to_zarr (f : h5file) (overwrite : bool) : M unit :=
  let* _g := zarr_group overwrite in
  let* ms := lift (multiscales f) in
  forM ms (level_body f).

(** The pure part of one iteration: [dset] as looked up in [self.arrays]. *)
Definition level_dataset (f : h5file) (i : nat) : result h5ds :=
  A <- arrays f ;;
  tk0 <- py_index (tseries_keys f) 0 ;;
  row <- dict_get A tk0 ;;
  ck0 <- py_index (channel_keys f) 0 ;;
  lv <- dict_get row ck0 ;;
  dn <- py_index lv (Z.of_nat i) ;;
  node_dataset dn.

(** The representative dataset of level [i] read from the container:
    [h5['<first time>/<first channel>/<i>/cells']]. *)
Definition representative (f : h5file) (i : nat) : result h5ds :=
  tk0 <- py_index (tseries_keys f) 0 ;;
  ck0 <- py_index (channel_keys f) 0 ;;
  n <- h5_cells f tk0 ck0 i ;;
  node_dataset n.

(** The block (t, c) of the destination array of level [i]. *)
Definition dest_block (st : store) (i t c : nat) : option (option ndarray) :=
  match lookup_arr i (st_arrays st) with
  | None => None
  | Some a =>
      match nth_error (za_data a) t with
      | None => None
      | Some row => nth_error row c
      end
  end.

(** Block (t, c) of a destination array's data, and its outer extent. *)
Definition grid_block (D : list (list (option ndarray))) (t c : nat) : option (option ndarray) :=
  match nth_error D t with
  | None => None
  | Some row => nth_error row c
  end.

Definition grid_ok (D : list (list (option ndarray))) (T C : nat) : Prop :=
  List.length D = T /\ Forall (fun row => List.length row = C) D.

(** Two top-level entries of a container that agree everywhere except,
    for a channel group, in its [subdivisions] member. *)
Definition entry_but_subdivisions (e e' : string * h5node) : Prop :=
  fst e = fst e' /\
  (snd e = snd e' \/
   (String.prefix "s" (fst e) = true /\
    exists m m', snd e = H5Group m /\ snd e' = H5Group m' /\
                 forall k, k <> "subdivisions" -> assoc k m = assoc k m')).

Definition same_but_subdivisions (f f' : h5file) : Prop :=
  Forall2 entry_but_subdivisions f f'.

Definition empty_store : store := {| st_group := false; st_arrays := [] |}.

(** ** A small BigDataViewer container

    Channels [s00] and [s01], one time point [t00000], two resolution
    levels; each level holds a 1x1x2 ([l0]) or 1x1x1 ([l1]) volume whose
    values tell the channel apart. *)
Definition vol (vs : list Z) : ndarray :=
  NArr [NArr [NArr (map NScalar vs)]].

Definition cells (shape : list nat) (vs : list Z) : h5node :=
  H5Group [("cells", H5Dataset {| ds_shape := shape; ds_chunks := Some shape;
                                  ds_data := vol vs |})].

Definition res_table (n : nat) : h5node :=
  H5Dataset {| ds_shape := [n; 3]; ds_chunks := None;
               ds_data := NArr (repeat (NArr [NScalar 1; NScalar 1; NScalar 1]) n) |}.

Definition chan_meta (n : nat) : h5node :=
  H5Group [("resolutions", res_table n); ("subdivisions", res_table n)].

Definition ex_file : h5file :=
  [("__DATA_TYPES__", H5Group []);
   ("s00", chan_meta 2);
   ("s01", chan_meta 2);
   ("t00000", H5Group
      [("s00", H5Group [("0", cells [1;1;2] [0; 1]%Z); ("1", cells [1;1;1] [2]%Z)]);
       ("s01", H5Group [("0", cells [1;1;2] [10; 11]%Z); ("1", cells [1;1;1] [12]%Z)])])].

(** A container holding only the type table: no channel, no time point. *)
Definition ex_empty : h5file := [("__DATA_TYPES__", H5Group [])].

(** Channel [s00] with two levels, channel [s01] with one. *)
Definition ex_uneven : h5file :=
  [("s00", chan_meta 2);
   ("s01", chan_meta 1);
   ("t00000", H5Group
      [("s00", H5Group [("0", cells [1;1;2] [0; 1]%Z); ("1", cells [1;1;1] [2]%Z)]);
       ("s01", H5Group [("0", cells [1;1;2] [10; 11]%Z)])])].


(** Like [ex_file], but the level-1 group of [t00000/s01] is missing. *)
Definition ex_missing : h5file :=
  [("s00", chan_meta 2);
   ("s01", chan_meta 2);
   ("t00000", H5Group
      [("s00", H5Group [("0", cells [1;1;2] [0; 1]%Z); ("1", cells [1;1;1] [2]%Z)]);
       ("s01", H5Group [("0", cells [1;1;2] [10; 11]%Z)])])].

(** [ex_file] without the channels' [subdivisions] tables. *)
Definition ex_nosub : h5file :=
  map (fun e => if String.prefix "s" (fst e)
                then (fst e, H5Group [("resolutions", res_table 2)]) else e) ex_file.

(** Like [ex_file], but the level-1 dataset of [t00000/s00] is stored
    contiguously ([dset.chunks] is [None]). *)
Definition ex_contiguous : h5file :=
  [("s00", chan_meta 2);
   ("s01", chan_meta 2);
   ("t00000", H5Group
      [("s00", H5Group [("0", cells [1;1;2] [0; 1]%Z);
                        ("1", H5Group [("cells", H5Dataset {| ds_shape := [1;1;1];
                                                              ds_chunks := None;
                                                              ds_data := vol [2]%Z |})])]);
       ("s01", H5Group [("0", cells [1;1;2] [10; 11]%Z); ("1", cells [1;1;1] [12]%Z)])])].

(** Channel metadata but no time point. *)
Definition ex_notime : h5file := [("s00", chan_meta 2)].

Example ex_keys :
  channel_keys ex_file = ["s00"; "s01"] /\ tseries_keys ex_file = ["t00000"].
Proof. split; reflexivity. Qed.

Example ex_multiscales : multiscales ex_file = Ok [0; 1].
Proof. reflexivity. Qed.

Example ex_getitem :
  getitem ex_file 0 0 1 full_slice full_slice full_slice = Ok (vol [10; 11]%Z).
Proof. reflexivity. Qed.

Example ex_to_zarr_ok : fst (to_zarr ex_file true empty_store) = Ok tt.
Proof. vm_compute. reflexivity. Qed.

Example ex_to_zarr_block :
  dest_block (snd (to_zarr ex_file true empty_store)) 0 0 1 = Some (Some (vol [0; 1]%Z)).
Proof. vm_compute. reflexivity. Qed.

(** ** Generic lemmas: the result and store monads *)

Lemma rbind_ok {A B} (m : result A) (k : A -> result B) b :
  rbind m k = Ok b -> exists a, m = Ok a /\ k a = Ok b.
Proof. destruct m as [a|e]; simpl; [eauto | discriminate]. Qed.

Lemma mbind_ok {A B} (m : M A) (k : A -> M B) s b s' :
  mbind m k s = (Ok b, s') -> exists a s1, m s = (Ok a, s1) /\ k a s1 = (Ok b, s').
Proof.
  unfold mbind. destruct (m s) as [[a|e] s1]; [eauto | discriminate].
Qed.

Lemma lift_ok {A} (r : result A) s a s' :
  lift r s = (Ok a, s') -> r = Ok a /\ s' = s.
Proof. destruct r; simpl; intros H; inversion H; auto. Qed.

Ltac inv_ok :=
  repeat match goal with
  | H : rbind _ _ = Ok _ |- _ =>
      let a := fresh "a" in let Ha := fresh "Ha" in
      apply rbind_ok in H; destruct H as [a [Ha H]]
  | H : mbind _ _ _ = (Ok _, _) |- _ =>
      let a := fresh "a" in let s := fresh "s" in let Ha := fresh "Ha" in
      apply mbind_ok in H; destruct H as [a [s [Ha H]]]
  | H : lift _ _ = (Ok _, _) |- _ =>
      let Hs := fresh "Hs" in
      apply lift_ok in H; destruct H as [H Hs]; subst
  | H : Ok _ = Ok _ |- _ => injection H as H; subst
  end.

Lemma mapM_length {A B} (g : A -> result B) l l' :
  mapM g l = Ok l' -> List.length l' = List.length l.
Proof.
  revert l'; induction l as [|a l IH]; simpl; intros l' H.
  - inversion H; reflexivity.
  - inv_ok. simpl. f_equal. auto.
Qed.

Lemma mapM_nth {A B} (g : A -> result B) l l' n a :
  mapM g l = Ok l' -> nth_error l n = Some a ->
  exists b, g a = Ok b /\ nth_error l' n = Some b.
Proof.
  revert l' n; induction l as [|x l IH]; intros l' n H Hn.
  - destruct n; discriminate.
  - simpl in H. inv_ok. destruct n as [|n]; simpl in Hn.
    + inversion Hn; subst. eauto.
    + simpl. eauto.
Qed.

(** A dict built as [dict((k, h(k)) for k in keys)]: each entry is the
    value computed for its own key.  [g] builds the pair, [h] the value. *)
Section DictOfKeys.
Context {V : Type} (g : string -> result (string * V)) (h : string -> result V).
Hypothesis Hgh : forall k e, g k = Ok e -> fst e = k /\ h k = Ok (snd e).

Lemma mapM_pairs ks S :
  mapM g ks = Ok S -> Forall2 (fun k e => fst e = k /\ h k = Ok (snd e)) ks S.
Proof.
  revert S; induction ks as [|k ks IH]; simpl; intros S H.
  - inversion H; constructor.
  - inv_ok. constructor; auto.
Qed.

Lemma assoc_entries (S : list (string * V)) k :
  Forall (fun e => h (fst e) = Ok (snd e)) S -> In k (map fst S) ->
  exists v, assoc k S = Some v /\ h k = Ok v.
Proof.
  induction S as [|[k' v'] S IH]; simpl; intros HF Hin; [contradiction|].
  inversion HF; subst. simpl in *.
  destruct (String.eqb k k') eqn:E.
  - apply String.eqb_eq in E; subst. eauto.
  - apply String.eqb_neq in E. destruct Hin as [Hk|Hin]; [congruence|]. auto.
Qed.

Lemma mapM_pairs_lookup ks S k :
  mapM g ks = Ok S -> In k ks ->
  exists v, dict_get S k = Ok v /\ h k = Ok v.
Proof.
  intros H Hin. apply mapM_pairs in H.
  assert (HF : Forall (fun e => h (fst e) = Ok (snd e)) S).
  { clear Hin. induction H as [|k0 e ks S [He Hh] _ IH]; constructor; auto.
    rewrite He; exact Hh. }
  assert (Hm : In k (map fst S)).
  { clear HF. induction H as [|k0 e ks S [He _] _ IH]; simpl in *; [contradiction|].
    destruct Hin as [<-|Hin]; auto. }
  destruct (assoc_entries S k HF Hm) as [v [Hv Hh]].
  exists v. unfold dict_get. rewrite Hv. auto.
Qed.

Lemma dict_get_pairs ks S k v :
  mapM g ks = Ok S -> dict_get S k = Ok v -> h k = Ok v.
Proof.
  intros H Hd. apply mapM_pairs in H.
  unfold dict_get in Hd. destruct (assoc k S) as [v'|] eqn:E; [|discriminate].
  inversion Hd; subst. clear Hd.
  induction H as [|k0 [k1 v1] ks S [He Hh] _ IH]; simpl in *; [discriminate|].
  subst. destruct (String.eqb k k0) eqn:Ek.
  - apply String.eqb_eq in Ek; subst. inversion E; subst. exact Hh.
  - auto.
Qed.
End DictOfKeys.

(** ** Python indexing *)

Lemma py_index_nat {A} (l : list A) (n : nat) :
  (n < List.length l)%nat -> py_index l (Z.of_nat n) = match nth_error l n with
                                                     | Some v => Ok v
                                                     | None => Err IndexError end.
Proof.
  intros Hn. unfold py_index. cbv zeta.
  replace (Z.of_nat n <? 0)%Z with false by (symmetry; apply Z.ltb_ge; lia).
  replace ((Z.of_nat n <? 0) || (Z.of_nat (List.length l) <=? Z.of_nat n))%Z with false
    by (symmetry; apply orb_false_iff; split; [apply Z.ltb_ge | apply Z.leb_gt]; lia).
  rewrite Nat2Z.id. reflexivity.
Qed.

Lemma py_index_ok_nat {A} (l : list A) (n : nat) v :
  nth_error l n = Some v -> py_index l (Z.of_nat n) = Ok v.
Proof.
  intros H. assert (n < List.length l)%nat by (apply nth_error_Some; congruence).
  rewrite py_index_nat by assumption. rewrite H. reflexivity.
Qed.

Lemma py_index_neg {A} (l : list A) (i : Z) :
  (- Z.of_nat (List.length l) <= i <= -1)%Z ->
  py_index l i = py_index l (Z.of_nat (List.length l) + i)%Z.
Proof.
  intros Hi. unfold py_index. cbv zeta.
  destruct (Z.ltb_spec i 0); [|lia]. cbv beta iota.
  assert (E : (Z.of_nat (List.length l) + i <? 0)%Z = false) by (apply Z.ltb_ge; lia).
  rewrite !E. reflexivity.
Qed.

Lemma py_index_out {A} (l : list A) (i : Z) :
  (i < - Z.of_nat (List.length l) \/ Z.of_nat (List.length l) <= i)%Z ->
  py_index l i = Err IndexError.
Proof.
  intros Hi. unfold py_index. cbv zeta.
  destruct (i <? 0)%Z eqn:E.
  - apply Z.ltb_lt in E.
    replace ((Z.of_nat (List.length l) + i <? 0)
             || (Z.of_nat (List.length l) <=? Z.of_nat (List.length l) + i))%Z with true
      by (symmetry; apply orb_true_iff; left; apply Z.ltb_lt; lia).
    reflexivity.
  - apply Z.ltb_ge in E.
    replace ((i <? 0) || (Z.of_nat (List.length l) <=? i))%Z with true
      by (symmetry; apply orb_true_iff; right; apply Z.leb_le; lia).
    reflexivity.
Qed.

Lemma py_index_ok_inv {A} (l : list A) (i : Z) v :
  py_index l i = Ok v ->
  exists n, nth_error l n = Some v.
Proof.
  unfold py_index. destruct (_ || _)%bool; [discriminate|].
  destruct (nth_error l _) eqn:E; intros H; inversion H; subst; eauto.
Qed.


(** ** [self.arrays] against the container *)

(** The list of level datasets of channel [ch] at time point [ts]. *)
Definition level_list (f : h5file) (ts ch : string) : result (list h5node) :=
  n <- channel_levels f ch ;;
  mapM (h5_cells f ts ch) (seq 0 n).

Definition arrays_row (f : h5file) (ts : string)
  : result (list (string * list h5node)) :=
  mapM (fun ch => n <- channel_levels f ch ;;
                  lv <- mapM (h5_cells f ts ch) (seq 0 n) ;;
                  Ok (ch, lv))
       (channel_keys f).

Lemma arrays_row_pair f ts ch e :
  (n <- channel_levels f ch ;;
   lv <- mapM (h5_cells f ts ch) (seq 0 n) ;; Ok (ch, lv)) = Ok e ->
  fst e = ch /\ level_list f ts ch = Ok (snd e).
Proof.
  intros H. inv_ok. simpl. split; [reflexivity|].
  unfold level_list. rewrite Ha. simpl. exact Ha0.
Qed.

Lemma arrays_pair f ts e :
  (row <- arrays_row f ts ;; Ok (ts, row)) = Ok e ->
  fst e = ts /\ arrays_row f ts = Ok (snd e).
Proof. intros H. inv_ok. auto. Qed.

Lemma arrays_unfold f :
  arrays f = mapM (fun ts => row <- arrays_row f ts ;; Ok (ts, row)) (tseries_keys f).
Proof. reflexivity. Qed.

(** Every discovered (time, channel) pair has its level list in
    [self.arrays], and that list is the container's [cells] datasets. *)
Lemma arrays_entry f A tk ck :
  arrays f = Ok A -> In tk (tseries_keys f) -> In ck (channel_keys f) ->
  exists row lv, dict_get A tk = Ok row /\ dict_get row ck = Ok lv /\
                 level_list f tk ck = Ok lv.
Proof.
  intros HA Htk Hck. rewrite arrays_unfold in HA.
  destruct (mapM_pairs_lookup _ (arrays_row f) (arrays_pair f) _ _ tk HA Htk)
    as [row [Hrow Hr]].
  destruct (mapM_pairs_lookup _ (level_list f tk) (arrays_row_pair f tk) _ _ ck Hr Hck)
    as [lv [Hlv Hl]].
  eauto.
Qed.

Lemma arrays_lookup f A tk ck row lv :
  arrays f = Ok A -> dict_get A tk = Ok row -> dict_get row ck = Ok lv ->
  level_list f tk ck = Ok lv.
Proof.
  intros HA Hrow Hlv. rewrite arrays_unfold in HA.
  pose proof (dict_get_pairs _ (arrays_row f) (arrays_pair f) _ _ _ _ HA Hrow) as Hr.
  exact (dict_get_pairs _ (level_list f tk) (arrays_row_pair f tk) _ _ _ _ Hr Hlv).
Qed.

Lemma level_list_nth f tk ck lv r d :
  level_list f tk ck = Ok lv -> nth_error lv r = Some d -> h5_cells f tk ck r = Ok d.
Proof.
  unfold level_list. intros H Hd. inv_ok.
  assert (Hr : (r < a)%nat).
  { apply mapM_length in H. rewrite length_seq in H.
    rewrite <- H. apply nth_error_Some. congruence. }
  assert (Hs : nth_error (seq 0 a) r = Some r).
  { rewrite nth_error_seq. destruct (Nat.ltb_spec r a); [reflexivity | lia]. }
  destruct (mapM_nth _ _ _ _ _ H Hs) as [b [Hb Hb']].
  congruence.
Qed.

Lemma level_list_length f tk ck lv :
  level_list f tk ck = Ok lv -> channel_levels f ck = Ok (List.length lv).
Proof.
  unfold level_list. intros H. inv_ok.
  apply mapM_length in H. rewrite length_seq in H. rewrite H. exact Ha.
Qed.

Lemma py_index_err {A} (l : list A) i e : py_index l i = Err e -> e = IndexError.
Proof.
  unfold py_index. destruct (_ || _)%bool; [congruence|].
  destruct (nth_error l _); congruence.
Qed.

Lemma py_index_in {A} (l : list A) i v : py_index l i = Ok v -> In v l.
Proof.
  intros H. destruct (py_index_ok_inv l i v H) as [n Hn].
  exact (nth_error_In l n Hn).
Qed.

(** The index of [j] in [0, len) read by [py_index]. *)
Lemma py_index_range {A} (l : list A) (j : Z) :
  (0 <= j < Z.of_nat (List.length l))%Z ->
  exists v, py_index l j = Ok v /\ nth_error l (Z.to_nat j) = Some v.
Proof.
  intros Hj.
  destruct (nth_error l (Z.to_nat j)) as [v|] eqn:E.
  - exists v. split; [|reflexivity].
    rewrite <- (Z2Nat.id j) by lia. apply py_index_ok_nat. exact E.
  - apply nth_error_None in E. lia.
Qed.

(** ** Claims on the read path *)

(** C2: for a discovered time point [t], channel [c] and a level [r] of that
    channel, [self[r, t, c, z, y, x]] is exactly the direct read
    [h5['<t>/<c>/<r>/cells'][z, y, x]] (same data, same error). *)
Theorem getitem_reads_source f A t c r tk ck L z y x :
  arrays f = Ok A ->
  nth_error (tseries_keys f) t = Some tk ->
  nth_error (channel_keys f) c = Some ck ->
  channel_levels f ck = Ok L -> (r < L)%nat ->
  getitem f (Z.of_nat r) (Z.of_nat t) (Z.of_nat c) z y x = direct_read f tk ck r z y x.
Proof.
  intros HA Ht Hc HL Hr. unfold getitem.
  rewrite (py_index_ok_nat _ _ _ Ht), (py_index_ok_nat _ _ _ Hc). simpl.
  rewrite HA. simpl.
  destruct (arrays_entry f A tk ck HA (nth_error_In _ _ Ht) (nth_error_In _ _ Hc))
    as [row [lv [Hrow [Hlv Hll]]]].
  rewrite Hrow. simpl. rewrite Hlv. simpl.
  pose proof (level_list_length _ _ _ _ Hll) as HL'.
  rewrite HL in HL'. injection HL' as ->.
  destruct (nth_error lv r) as [d|] eqn:Ed.
  2:{ apply nth_error_None in Ed. lia. }
  rewrite (py_index_ok_nat _ _ _ Ed). simpl.
  unfold direct_read. rewrite (level_list_nth _ _ _ _ _ _ Hll Ed). reflexivity.
Qed.

Lemma getitem_reads_source_witness :
  getitem ex_file 0 0 1 full_slice full_slice full_slice
  = direct_read ex_file "t00000" "s01" 0 full_slice full_slice full_slice.
Proof.
  eapply (getitem_reads_source ex_file _ 0 1 0 "t00000" "s01" 2).
  - reflexivity.
  - reflexivity.
  - reflexivity.
  - reflexivity.
  - lia.
Defined.

(** C10: a negative time position [t] with [-T <= t <= -1] (resp. channel
    position) does not raise: it selects the discovered key at [T + t]
    (resp. [C + ch]) and [self[res, t, ch, ...]] reads what
    [self[res, T + t, ch, ...]] reads. *)
Theorem getitem_negative_index f res z y x :
  (forall t ch, (- Z.of_nat (num_tseries f) <= t <= -1)%Z ->
     (exists k, py_index (tseries_keys f) t = Ok k /\
                nth_error (tseries_keys f) (Z.to_nat (Z.of_nat (num_tseries f) + t)) = Some k) /\
     getitem f res t ch z y x = getitem f res (Z.of_nat (num_tseries f) + t) ch z y x) /\
  (forall t ch, (- Z.of_nat (num_channels f) <= ch <= -1)%Z ->
     (exists k, py_index (channel_keys f) ch = Ok k /\
                nth_error (channel_keys f) (Z.to_nat (Z.of_nat (num_channels f) + ch)) = Some k) /\
     getitem f res t ch z y x = getitem f res t (Z.of_nat (num_channels f) + ch) z y x).
Proof.
  unfold num_tseries, num_channels. split; intros t ch Hi.
  - rewrite py_index_neg by exact Hi. split.
    + apply py_index_range. lia.
    + unfold getitem. rewrite (py_index_neg _ t) by exact Hi. reflexivity.
  - rewrite py_index_neg by exact Hi. split.
    + apply py_index_range. lia.
    + unfold getitem. rewrite (py_index_neg _ ch) by exact Hi. reflexivity.
Qed.

Lemma getitem_negative_index_witness :
  getitem ex_file 0 (-1) (-1) full_slice full_slice full_slice
  = getitem ex_file 0 0 (-1) full_slice full_slice full_slice /\
  getitem ex_file 0 0 (-1) full_slice full_slice full_slice
  = getitem ex_file 0 0 1 full_slice full_slice full_slice.
Proof.
  destruct (getitem_negative_index ex_file 0 full_slice full_slice full_slice) as [Ht Hc].
  split.
  - apply (Ht (-1)%Z (-1)%Z). vm_compute. split; intro H; discriminate H.
  - apply (Hc 0%Z (-1)%Z). vm_compute. split; intro H; discriminate H.
Defined.

(** C8 (as stated, refuted): time position [-1] and level [-1] are outside
    [0..T-1] and [0..L-1], yet [__getitem__] returns data for them. *)
Lemma getitem_negative_no_error :
  getitem ex_file 0 (-1) 0 full_slice full_slice full_slice = Ok (vol [0; 1]%Z) /\
  getitem ex_file (-1) 0 1 full_slice full_slice full_slice = Ok (vol [12]%Z).
Proof. split; reflexivity. Qed.

(** C8 (amended): [__getitem__] follows Python sequence indexing.  It
    raises IndexError when the time position lies outside [-T, T) or the
    channel position outside [-C, C), and, when discovery succeeds, when
    the level lies outside [-L, L) for the channel's level count [L].
    Negative positions inside these bounds count from the end: a time
    position [t] in [-T, -1] reads what [T + t] reads, a channel position
    [ch] in [-C, -1] what [C + ch] reads, and a level [res] in [-L, -1]
    what [L + res] reads. *)
Theorem getitem_index_error f res t ch z y x :
  ((t < - Z.of_nat (num_tseries f) \/ Z.of_nat (num_tseries f) <= t)%Z \/
   (ch < - Z.of_nat (num_channels f) \/ Z.of_nat (num_channels f) <= ch)%Z ->
   getitem f res t ch z y x = Err IndexError) /\
  (forall tk ck A L,
     py_index (tseries_keys f) t = Ok tk -> py_index (channel_keys f) ch = Ok ck ->
     arrays f = Ok A -> channel_levels f ck = Ok L ->
     (res < - Z.of_nat L \/ Z.of_nat L <= res)%Z ->
     getitem f res t ch z y x = Err IndexError) /\
  ((- Z.of_nat (num_tseries f) <= t <= -1)%Z ->
   getitem f res t ch z y x = getitem f res (Z.of_nat (num_tseries f) + t) ch z y x) /\
  ((- Z.of_nat (num_channels f) <= ch <= -1)%Z ->
   getitem f res t ch z y x = getitem f res t (Z.of_nat (num_channels f) + ch) z y x) /\
  (forall tk ck A L,
     py_index (tseries_keys f) t = Ok tk -> py_index (channel_keys f) ch = Ok ck ->
     arrays f = Ok A -> channel_levels f ck = Ok L ->
     (- Z.of_nat L <= res <= -1)%Z ->
     getitem f res t ch z y x = getitem f (Z.of_nat L + res) t ch z y x).
Proof.
  unfold num_tseries, num_channels. split; [|split; [|split; [|split]]].
  - intros [Ht|Hc]; unfold getitem.
    + rewrite (py_index_out _ t Ht). reflexivity.
    + destruct (py_index (tseries_keys f) t) as [tk|e] eqn:E; simpl.
      * rewrite (py_index_out _ ch Hc). reflexivity.
      * rewrite (py_index_err _ _ _ E). reflexivity.
  - intros tk ck A L Ht Hc HA HL Hr. unfold getitem.
    rewrite Ht, Hc. simpl. rewrite HA. simpl.
    destruct (arrays_entry f A tk ck HA (py_index_in _ _ _ Ht) (py_index_in _ _ _ Hc))
      as [row [lv [Hrow [Hlv Hll]]]].
    rewrite Hrow. simpl. rewrite Hlv. simpl.
    pose proof (level_list_length _ _ _ _ Hll) as HL'.
    rewrite HL in HL'. injection HL' as ->.
    rewrite (py_index_out _ res Hr). reflexivity.
  - intros Ht. unfold getitem. rewrite (py_index_neg _ t) by exact Ht. reflexivity.
  - intros Hc. unfold getitem. rewrite (py_index_neg _ ch) by exact Hc. reflexivity.
  - intros tk ck A L Ht Hc HA HL Hr. unfold getitem.
    rewrite Ht, Hc. simpl. rewrite HA. simpl.
    destruct (arrays_entry f A tk ck HA (py_index_in _ _ _ Ht) (py_index_in _ _ _ Hc))
      as [row [lv [Hrow [Hlv Hll]]]].
    rewrite Hrow. simpl. rewrite Hlv. simpl.
    pose proof (level_list_length _ _ _ _ Hll) as HL'.
    rewrite HL in HL'. injection HL' as ->.
    rewrite (py_index_neg _ res) by exact Hr. reflexivity.
Qed.

Lemma getitem_index_error_witness :
  getitem ex_file 0 1 0 full_slice full_slice full_slice = Err IndexError /\
  getitem ex_file 2 0 0 full_slice full_slice full_slice = Err IndexError /\
  getitem ex_file 0 (-1) 0 full_slice full_slice full_slice
  = getitem ex_file 0 0 0 full_slice full_slice full_slice /\
  getitem ex_file 0 0 (-2) full_slice full_slice full_slice
  = getitem ex_file 0 0 0 full_slice full_slice full_slice /\
  getitem ex_file (-1) 0 1 full_slice full_slice full_slice
  = getitem ex_file 1 0 1 full_slice full_slice full_slice.
Proof.
  destruct (getitem_index_error ex_file 0 1 0 full_slice full_slice full_slice) as [H1 _].
  destruct (getitem_index_error ex_file 2 0 0 full_slice full_slice full_slice) as [_ [H2 _]].
  destruct (getitem_index_error ex_file 0 (-1) 0 full_slice full_slice full_slice)
    as [_ [_ [H3 _]]].
  destruct (getitem_index_error ex_file 0 0 (-2) full_slice full_slice full_slice)
    as [_ [_ [_ [H4 _]]]].
  destruct (getitem_index_error ex_file (-1) 0 1 full_slice full_slice full_slice)
    as [_ [_ [_ [_ H5]]]].
  split; [|split; [|split; [|split]]].
  - apply H1. left. right. vm_compute. intro H; discriminate H.
  - eapply (H2 "t00000" "s00" _ 2); try reflexivity.
    right. vm_compute. intro H; discriminate H.
  - apply H3. vm_compute. split; intro H; discriminate H.
  - apply H4. vm_compute. split; intro H; discriminate H.
  - apply (H5 "t00000" "s01" (match arrays ex_file with Ok A => A | Err _ => [] end) 2);
      try reflexivity.
    vm_compute. split; intro H; discriminate H.
Defined.

(** ** Claims on discovery *)

(** C5 (as stated, refuted): with no entry named [s*] or [t*], discovery
    returns empty key sequences and [to_zarr] even succeeds, writing an
    empty root group. *)
Lemma discovery_empty_no_error :
  channel_keys ex_empty = [] /\ tseries_keys ex_empty = [] /\
  to_zarr ex_empty true empty_store = (Ok tt, {| st_group := true; st_arrays := [] |}).
Proof. split; [|split]; reflexivity. Qed.

(** C5 (amended): discovery never raises; when no top-level entry starts
    with ['s'] or ['t'], [channel_keys] and [tseries_keys] are empty,
    [multiscales] is the empty list and [to_zarr] succeeds without
    creating any array. *)
Theorem discovery_empty f ow st :
  Forall (fun k => String.prefix "s" k = false /\ String.prefix "t" k = false) (h5_keys f) ->
  channel_keys f = [] /\ tseries_keys f = [] /\ multiscales f = Ok [] /\
  fst (to_zarr f ow st) = Ok tt /\
  st_arrays (snd (to_zarr f ow st)) = st_arrays (snd (zarr_group ow st)).
Proof.
  intros HF.
  assert (Hc : channel_keys f = []).
  { unfold channel_keys. induction HF as [|k ks [Hs _] _ IH]; simpl; [reflexivity|].
    rewrite Hs. exact IH. }
  assert (Ht : tseries_keys f = []).
  { unfold tseries_keys. induction HF as [|k ks [_ Ht] _ IH]; simpl; [reflexivity|].
    rewrite Ht. exact IH. }
  assert (Hm : multiscales f = Ok []).
  { unfold multiscales, scales. rewrite Hc. reflexivity. }
  repeat split; try assumption;
    unfold to_zarr, mbind; destruct (zarr_group ow st) as [[[]|e] s1] eqn:Eg;
    try (unfold zarr_group in Eg; destruct ow; [|destruct (st_group st)]; discriminate Eg);
    simpl; rewrite Hm; reflexivity.
Qed.

Lemma discovery_empty_witness :
  channel_keys ex_empty = [] /\ tseries_keys ex_empty = [] /\ multiscales ex_empty = Ok [] /\
  fst (to_zarr ex_empty false empty_store) = Ok tt /\
  st_arrays (snd (to_zarr ex_empty false empty_store))
  = st_arrays (snd (zarr_group false empty_store)).
Proof.
  apply discovery_empty. repeat constructor.
Defined.

(** ** Level counts *)

(** [self.h5[c]['resolutions'][:]]. *)
Definition scale_of (f : h5file) (c : string) : result ndarray :=
  g <- h5_get (h5_root f) c ;;
  r <- h5_get g "resolutions" ;;
  node_read r.

Lemma scales_pair f c e :
  (g <- h5_get (h5_root f) c ;; r <- h5_get g "resolutions" ;;
   v <- node_read r ;; Ok (c, v)) = Ok e ->
  fst e = c /\ scale_of f c = Ok (snd e).
Proof.
  intros H. inv_ok. simpl. split; [reflexivity|].
  unfold scale_of. rewrite Ha. simpl. rewrite Ha0. simpl. exact Ha1.
Qed.

Lemma channel_levels_scales f ck L :
  channel_levels f ck = Ok L -> exists S, scales f = Ok S.
Proof. unfold channel_levels. intros H. inv_ok. eauto. Qed.

(** [lengths] of [multiscales] is the list of per-channel level counts. *)
Lemma lengths_levels f S lens :
  scales f = Ok S ->
  Forall2 (fun ck L => channel_levels f ck = Ok L) (channel_keys f) lens ->
  mapM (fun kv => nd_len (snd kv)) S = Ok lens.
Proof.
  intros HS HL.
  pose proof (mapM_pairs _ (scale_of f) (scales_pair f) _ _ HS) as HP.
  assert (Hv : forall ck L, channel_levels f ck = Ok L ->
                 exists v, scale_of f ck = Ok v /\ nd_len v = Ok L).
  { intros ck L H. unfold channel_levels in H. rewrite HS in H. simpl in H.
    inv_ok. exists a. split; [|exact H].
    exact (dict_get_pairs _ (scale_of f) (scales_pair f) _ _ _ _ HS Ha). }
  clear HS. revert lens HL.
  induction HP as [|ck e ks S' [He Hs] _ IH]; intros lens HL; inversion HL; subst.
  - reflexivity.
  - simpl. destruct (Hv _ _ H1) as [v [Hsv Hl]].
    rewrite Hs in Hsv. injection Hsv as ->. rewrite Hl. simpl.
    rewrite (IH _ H3). reflexivity.
Qed.

Lemma nodup_const (L : nat) l :
  l <> [] -> Forall (fun n => n = L) l -> nodup Nat.eq_dec l = [L].
Proof.
  induction l as [|x l IH]; intros Hne HF; [congruence|].
  inversion HF; subst. simpl.
  destruct l as [|y l'].
  - reflexivity.
  - destruct (in_dec Nat.eq_dec L (y :: l')) as [_|Hn].
    + apply IH; [discriminate | assumption].
    + exfalso. apply Hn. inversion H2; subst. left; reflexivity.
Qed.

Lemma set_size_two (l : list nat) a b :
  In a l -> In b l -> a <> b -> set_size l <> 1%nat.
Proof.
  unfold set_size. intros Ha Hb Hab Hs.
  apply (nodup_In Nat.eq_dec) in Ha, Hb.
  destruct (nodup Nat.eq_dec l) as [|w [|w' r]]; simpl in *; try discriminate.
  destruct Ha as [<-|[]]; destruct Hb as [<-|[]]. contradiction.
Qed.

Lemma multiscales_unfold f S lens :
  scales f = Ok S -> mapM (fun kv => nd_len (snd kv)) S = Ok lens ->
  multiscales f = if Nat.eqb (set_size lens) 1
                  then (l0 <- py_index lens 0 ;; Ok (seq 0 l0)) else Ok lens.
Proof. intros HS Hl. unfold multiscales. rewrite HS. simpl. rewrite Hl. reflexivity. Qed.

Lemma multiscales_const f lens L :
  Forall2 (fun ck L => channel_levels f ck = Ok L) (channel_keys f) lens ->
  lens <> [] -> Forall (fun n => n = L) lens -> multiscales f = Ok (seq 0 L).
Proof.
  intros HL Hne HF.
  assert (HS : exists S, scales f = Ok S).
  { destruct HL as [|ck L' ks ls H _]; [congruence|].
    exact (channel_levels_scales _ _ _ H). }
  destruct HS as [S HS].
  rewrite (multiscales_unfold f S lens HS (lengths_levels f S lens HS HL)).
  unfold set_size. rewrite (nodup_const L lens Hne HF). simpl.
  destruct lens as [|x l]; [congruence|]. inversion HF; subst. reflexivity.
Qed.

Lemma multiscales_distinct f lens :
  Forall2 (fun ck L => channel_levels f ck = Ok L) (channel_keys f) lens ->
  (exists a b, In a lens /\ In b lens /\ a <> b) -> multiscales f = Ok lens.
Proof.
  intros HL [a [b [Ha [Hb Hab]]]].
  assert (HS : exists S, scales f = Ok S).
  { destruct HL as [|ck L' ks ls H _]; [contradiction|].
    exact (channel_levels_scales _ _ _ H). }
  destruct HS as [S HS].
  rewrite (multiscales_unfold f S lens HS (lengths_levels f S lens HS HL)).
  destruct (Nat.eqb_spec (set_size lens) 1) as [E|_]; [|reflexivity].
  exfalso. exact (set_size_two lens a b Ha Hb Hab E).
Qed.

(** C4: with [lens] the level counts of the discovered channels, in
    channel order: when they all equal [L], [multiscales] is [0 .. L-1];
    when two of them differ, [multiscales] is [lens] itself, one count per
    channel, nothing truncated. *)
Theorem multiscales_levels f lens :
  Forall2 (fun ck L => channel_levels f ck = Ok L) (channel_keys f) lens ->
  (forall L, lens <> [] -> Forall (fun n => n = L) lens -> multiscales f = Ok (seq 0 L)) /\
  ((exists a b, In a lens /\ In b lens /\ a <> b) -> multiscales f = Ok lens).
Proof.
  intros HL. split.
  - intros L. exact (multiscales_const f lens L HL).
  - exact (multiscales_distinct f lens HL).
Qed.

Lemma multiscales_levels_witness :
  multiscales ex_file = Ok [0; 1] /\ multiscales ex_uneven = Ok [2; 1].
Proof.
  split.
  - apply (proj1 (multiscales_levels ex_file [2; 2] ltac:(repeat constructor)) 2).
    + discriminate.
    + repeat constructor.
  - apply (proj2 (multiscales_levels ex_uneven [2; 1] ltac:(repeat constructor))).
    exists 2, 1. simpl. split; [|split]; auto.
Defined.

(** ** Claims on [to_zarr] *)

(** C9: with [overwrite=True], [to_zarr] ignores what the store held: two
    runs from any two stores give the same outcome and the same store, and
    re-running on its own output reproduces it. *)
Theorem to_zarr_overwrite_idempotent f st1 st2 :
  to_zarr f true st1 = to_zarr f true st2 /\
  to_zarr f true (snd (to_zarr f true st1)) = to_zarr f true st1.
Proof. split; reflexivity. Qed.

(** C1 (code defect): [to_zarr] writes [dset], the dataset of the first
    time point and first channel, into every (t, c) block.  In [ex_file]
    the block (t=0, c=1) of level 0 receives channel [s00]'s data, while
    channel [s01]'s level-0 dataset holds other values. *)
Lemma to_zarr_copies_first_channel :
  fst (to_zarr ex_file true empty_store) = Ok tt /\
  dest_block (snd (to_zarr ex_file true empty_store)) 0 0 1 = Some (Some (vol [0; 1]%Z)) /\
  direct_read ex_file "t00000" "s01" 0 full_slice full_slice full_slice
  = Ok (vol [10; 11]%Z).
Proof. vm_compute. repeat split. Qed.

(** ** Store lemmas *)

(** The writes of one level, once [dset] and its chunks are known. *)
Definition level_write (f : h5file) (i : nat) (dset : h5ds) (ch : list nat) : M unit :=
  let* _e := empty_like i (num_tseries f :: num_channels f :: ds_shape dset) (1 :: 1 :: ch) in
  forM (seq 0 (num_tseries f)) (fun t =>
    forM (seq 0 (num_channels f)) (fun c =>
      write_slice i t c dset)).

Lemma level_body_eq f i s :
  level_body f i s =
  match level_dataset f i with
  | Err e => (Err e, s)
  | Ok dset => match unpack_chunks (ds_chunks dset) with
               | Err e => (Err e, s)
               | Ok ch => level_write f i dset ch s
               end
  end.
Proof.
  unfold level_body, level_dataset, level_write, mbind, lift.
  destruct (arrays f) as [A|e]; simpl; [|reflexivity].
  destruct (py_index (tseries_keys f) 0) as [tk0|e]; simpl; [|reflexivity].
  destruct (dict_get A tk0) as [row|e]; simpl; [|reflexivity].
  destruct (py_index (channel_keys f) 0) as [ck0|e]; simpl; [|reflexivity].
  destruct (dict_get row ck0) as [lv|e]; simpl; [|reflexivity].
  destruct (py_index lv (Z.of_nat i)) as [dn|e]; simpl; [|reflexivity].
  destruct (node_dataset dn) as [d|e]; simpl; [|reflexivity].
  destruct (unpack_chunks (ds_chunks d)) as [ch|e]; reflexivity.
Qed.

Lemma lookup_replace j i a' l :
  lookup_arr j (replace_arr i a' l) =
  if Nat.eqb j i then match lookup_arr j l with Some _ => Some a' | None => None end
  else lookup_arr j l.
Proof.
  induction l as [|[k b] l IH]; simpl.
  - destruct (Nat.eqb j i); reflexivity.
  - destruct (Nat.eqb_spec i k) as [->|Hik]; simpl.
    + destruct (Nat.eqb_spec j k); reflexivity.
    + rewrite IH. destruct (Nat.eqb_spec j k) as [->|Hjk].
      * destruct (Nat.eqb_spec k i); [congruence | reflexivity].
      * reflexivity.
Qed.

(** [s'] keeps the root-group flag of [s] and every array of [s] with its
    shape and chunks. *)
Definition keeps (s s' : store) : Prop :=
  st_group s' = st_group s /\
  forall j a, lookup_arr j (st_arrays s) = Some a ->
    exists a', lookup_arr j (st_arrays s') = Some a' /\
               za_shape a' = za_shape a /\ za_chunks a' = za_chunks a.

Lemma keeps_refl s : keeps s s.
Proof. split; [reflexivity|]. intros j a H. eauto. Qed.

Lemma keeps_trans s1 s2 s3 : keeps s1 s2 -> keeps s2 s3 -> keeps s1 s3.
Proof.
  intros [G1 H1] [G2 H2]. split; [congruence|].
  intros j a H. destruct (H1 j a H) as [a' [Ha' [E1 E2]]].
  destruct (H2 j a' Ha') as [a'' [Ha'' [F1 F2]]]. exists a''. repeat split; congruence.
Qed.

Lemma empty_like_ok i sh ch s u s' :
  empty_like i sh ch s = (Ok u, s') ->
  lookup_arr i (st_arrays s) = None /\ keeps s s' /\
  exists a, lookup_arr i (st_arrays s') = Some a /\ za_shape a = sh /\ za_chunks a = ch.
Proof.
  unfold empty_like. destruct (lookup_arr i (st_arrays s)) eqn:E; intros H; [discriminate|].
  inversion H; subst; clear H. split; [reflexivity|]. split.
  - split; [reflexivity|]. intros j a Hj. simpl.
    destruct (Nat.eqb_spec j i) as [->|]; [congruence|]. eauto.
  - simpl. rewrite Nat.eqb_refl. eauto.
Qed.

Lemma write_slice_keeps i t c d s u s' :
  write_slice i t c d s = (Ok u, s') -> keeps s s'.
Proof.
  unfold write_slice. destruct (lookup_arr i (st_arrays s)) as [a|] eqn:E; [|discriminate].
  destruct (negb _); [discriminate|].
  destruct (list_eq_dec _ _ _); [|discriminate].
  intros H; inversion H; subst; clear H. split; [reflexivity|].
  intros j b Hj. simpl. rewrite lookup_replace, Hj.
  destruct (Nat.eqb_spec j i) as [->|]; [|eauto].
  rewrite E in Hj. injection Hj as <-. eexists; repeat split.
Qed.

Section Loops.
Variable R : store -> store -> Prop.
Hypothesis R_refl : forall s, R s s.
Hypothesis R_trans : forall s1 s2 s3, R s1 s2 -> R s2 s3 -> R s1 s3.

Lemma forM_rel {A} (l : list A) body s s' :
  (forall x s1 s2, In x l -> body x s1 = (Ok tt, s2) -> R s1 s2) ->
  forM l body s = (Ok tt, s') -> R s s'.
Proof.
  revert s; induction l as [|x l IH]; simpl; intros s Hb H.
  - inversion H; subst. apply R_refl.
  - inv_ok. destruct a. eapply R_trans; [eapply Hb; eauto|].
    apply IH; [|exact H]. intros; eapply Hb; eauto.
Qed.

Lemma forM_each {A} (l : list A) body s s' :
  (forall x s1 s2, In x l -> body x s1 = (Ok tt, s2) -> R s1 s2) ->
  forM l body s = (Ok tt, s') ->
  forall x, In x l -> exists s1 s2, body x s1 = (Ok tt, s2) /\ R s2 s'.
Proof.
  revert s; induction l as [|y l IH]; simpl; intros s Hb H x Hx; [contradiction|].
  inv_ok. destruct a.
  assert (Hb' : forall x s1 s2, In x l -> body x s1 = (Ok tt, s2) -> R s1 s2)
    by (intros x0 s1 s2 Hx0 Hs; eapply Hb; [right; exact Hx0 | exact Hs]).
  destruct Hx as [<-|Hx].
  - exists s, s0. split; [exact Ha|]. exact (forM_rel l body s0 s' Hb' H).
  - exact (IH s0 Hb' H x Hx).
Qed.
End Loops.

Lemma forM_seq_ok (P : nat -> store -> Prop) body start len s :
  P start s ->
  (forall k s1, (start <= k < start + len)%nat -> P k s1 ->
     exists s2, body k s1 = (Ok tt, s2) /\ P (S k) s2) ->
  exists s', forM (seq start len) body s = (Ok tt, s') /\ P (start + len)%nat s'.
Proof.
  revert start s; induction len as [|len IH]; intros start s H0 Hs; simpl.
  - exists s. rewrite Nat.add_0_r. auto.
  - destruct (Hs start s ltac:(lia) H0) as [s2 [Hb HP]].
    unfold mbind. rewrite Hb.
    destruct (IH (S start) s2 HP) as [s' [Hf HP']].
    { intros k s1 Hk. apply Hs. lia. }
    exists s'. split; [exact Hf|]. replace (start + S len)%nat with (S start + len)%nat by lia.
    exact HP'.
Qed.

Lemma level_write_keeps f i d ch s u s' :
  level_write f i d ch s = (Ok u, s') -> keeps s s'.
Proof.
  unfold level_write. intros H. inv_ok.
  destruct (empty_like_ok _ _ _ _ _ _ Ha) as [_ [K _]].
  destruct u.
  eapply keeps_trans; [exact K|].
  eapply (forM_rel keeps keeps_refl keeps_trans); [|exact H].
  intros t s1 s2 _ Ht.
  eapply (forM_rel keeps keeps_refl keeps_trans); [|exact Ht].
  intros c s3 s4 _ Hc. exact (write_slice_keeps _ _ _ _ _ _ _ Hc).
Qed.

Lemma level_body_keeps f i s s' :
  level_body f i s = (Ok tt, s') -> keeps s s'.
Proof.
  rewrite level_body_eq.
  destruct (level_dataset f i) as [d|e]; [|discriminate].
  destruct (unpack_chunks (ds_chunks d)) as [ch|e]; [|discriminate].
  apply level_write_keeps.
Qed.

Lemma py_index_nat_inv {A} (l : list A) (n : nat) v :
  py_index l (Z.of_nat n) = Ok v -> nth_error l n = Some v.
Proof.
  destruct (Nat.ltb_spec n (List.length l)) as [Hn|Hn].
  - rewrite py_index_nat by exact Hn. destruct (nth_error l n); congruence.
  - rewrite py_index_out by lia. discriminate.
Qed.

(** The [dset] of level [i] in [to_zarr] is the container's
    representative dataset of that level. *)
Lemma level_dataset_representative f i d :
  level_dataset f i = Ok d -> representative f i = Ok d.
Proof.
  unfold level_dataset, representative. intros H. inv_ok.
  rewrite Ha0. simpl. rewrite Ha2. simpl.
  pose proof (arrays_lookup _ _ _ _ _ _ Ha Ha1 Ha3) as Hl.
  rewrite (level_list_nth _ _ _ _ _ _ Hl (py_index_nat_inv _ _ _ Ha4)). simpl.
  exact H.
Qed.

Lemma level_write_geometry f i d ch s s' :
  level_write f i d ch s = (Ok tt, s') ->
  exists a, lookup_arr i (st_arrays s') = Some a /\
            za_shape a = num_tseries f :: num_channels f :: ds_shape d /\
            za_chunks a = 1 :: 1 :: ch.
Proof.
  unfold level_write. intros H. inv_ok.
  destruct (empty_like_ok _ _ _ _ _ _ Ha) as [_ [_ [a0 [Ha0 [E1 E2]]]]].
  assert (K : keeps s0 s').
  { eapply (forM_rel keeps keeps_refl keeps_trans); [|exact H].
    intros t s1 s2 _ Ht.
    eapply (forM_rel keeps keeps_refl keeps_trans); [|exact Ht].
    intros c s3 s4 _ Hc. exact (write_slice_keeps _ _ _ _ _ _ _ Hc). }
  destruct K as [_ K]. destruct (K _ _ Ha0) as [a' [Ha' [F1 F2]]].
  exists a'. repeat split; congruence.
Qed.

Lemma level_write_exists f i d ch s a :
  lookup_arr i (st_arrays s) = Some a ->
  level_write f i d ch s = (Err ContainsArrayError, s).
Proof. intros H. unfold level_write, mbind, empty_like. rewrite H. reflexivity. Qed.

Lemma to_zarr_steps f ow st st' :
  to_zarr f ow st = (Ok tt, st') ->
  exists s1 ms, zarr_group ow st = (Ok tt, s1) /\ multiscales f = Ok ms /\
                forM ms (level_body f) s1 = (Ok tt, st').
Proof.
  unfold to_zarr. intros H. inv_ok. destruct a. eauto.
Qed.

Lemma zarr_group_flag ow st s1 :
  zarr_group ow st = (Ok tt, s1) -> st_group s1 = true.
Proof.
  unfold zarr_group. destruct ow; [intros H; inversion H; reflexivity|].
  destruct (st_group st) eqn:E; intros H; inversion H; subst; auto.
Qed.

(** C3: after a successful [to_zarr], for every level [i] of
    [multiscales], the destination array [i] has shape
    [(T, C, *shape)] and chunks [(1, 1, *chunks)], where [shape] and
    [chunks] are those of the representative (first time point, first
    channel) dataset of level [i]. *)
Theorem to_zarr_level_geometry f ow st st' ms i :
  to_zarr f ow st = (Ok tt, st') -> multiscales f = Ok ms -> In i ms ->
  exists d ch a, representative f i = Ok d /\ ds_chunks d = Some ch /\
    lookup_arr i (st_arrays st') = Some a /\
    za_shape a = num_tseries f :: num_channels f :: ds_shape d /\
    za_chunks a = 1 :: 1 :: ch.
Proof.
  intros H Hms Hi.
  destruct (to_zarr_steps _ _ _ _ H) as [s1 [ms' [Hg [Hms' Hf]]]].
  rewrite Hms in Hms'. injection Hms' as <-.
  destruct (forM_each keeps keeps_refl keeps_trans ms (level_body f) s1 st'
              (fun x s s' _ Hx => level_body_keeps f x s s' Hx) Hf i Hi)
    as [s2 [s3 [Hb K]]].
  rewrite level_body_eq in Hb.
  destruct (level_dataset f i) as [d|e] eqn:Ed; [|discriminate].
  destruct (ds_chunks d) as [ch|] eqn:Ec; simpl in Hb; [|discriminate].
  destruct (level_write_geometry _ _ _ _ _ _ Hb) as [a [Ha [E1 E2]]].
  destruct K as [_ K]. destruct (K _ _ Ha) as [a' [Ha' [F1 F2]]].
  exists d, ch, a'. repeat split; try congruence.
  exact (level_dataset_representative _ _ _ Ed).
Qed.

Lemma to_zarr_level_geometry_witness :
  exists d ch a, representative ex_file 1 = Ok d /\ ds_chunks d = Some ch /\
    lookup_arr 1 (st_arrays (snd (to_zarr ex_file true empty_store))) = Some a /\
    za_shape a = num_tseries ex_file :: num_channels ex_file :: ds_shape d /\
    za_chunks a = 1 :: 1 :: ch.
Proof.
  apply (to_zarr_level_geometry ex_file true empty_store
           (snd (to_zarr ex_file true empty_store)) [0; 1] 1).
  - vm_compute. reflexivity.
  - reflexivity.
  - right; left; reflexivity.
Defined.

(** C7: once [to_zarr] has converted a source with at least one level into
    a store, running it again with [overwrite=False] fails with zarr's
    ContainsArrayError (the destination-exists error) at the first level
    and returns the store exactly as it was. *)
Theorem to_zarr_rerun_no_overwrite f ow st st1 i is :
  to_zarr f ow st = (Ok tt, st1) -> multiscales f = Ok (i :: is) ->
  to_zarr f false st1 = (Err ContainsArrayError, st1).
Proof.
  intros H Hms.
  destruct (to_zarr_steps _ _ _ _ H) as [s1 [ms' [Hg [Hms' Hf]]]].
  rewrite Hms in Hms'. injection Hms' as <-.
  assert (Hkeep : forall x s s', In x (i :: is) -> level_body f x s = (Ok tt, s') -> keeps s s')
    by (intros x s s' _ Hx; exact (level_body_keeps f x s s' Hx)).
  assert (G : st_group st1 = true).
  { destruct (forM_rel keeps keeps_refl keeps_trans _ _ _ _ Hkeep Hf) as [G _].
    rewrite G. exact (zarr_group_flag _ _ _ Hg). }
  destruct (forM_each keeps keeps_refl keeps_trans _ _ _ _ Hkeep Hf i (or_introl eq_refl))
    as [s2 [s3 [Hb K]]].
  rewrite level_body_eq in Hb.
  destruct (level_dataset f i) as [d|e] eqn:Ed; [|discriminate].
  destruct (ds_chunks d) as [ch|] eqn:Ec; simpl in Hb; [|discriminate].
  destruct (level_write_geometry _ _ _ _ _ _ Hb) as [a [Ha _]].
  destruct K as [_ K]. destruct (K _ _ Ha) as [a' [Ha' _]].
  unfold to_zarr, mbind at 1, zarr_group. rewrite G. simpl.
  rewrite Hms. cbn [mbind lift forM]. unfold mbind at 1.
  rewrite level_body_eq, Ed, Ec. simpl.
  rewrite (level_write_exists f i d ch st1 a' Ha'). reflexivity.
Qed.

Lemma to_zarr_rerun_no_overwrite_witness :
  to_zarr ex_file false (snd (to_zarr ex_file true empty_store))
  = (Err ContainsArrayError, snd (to_zarr ex_file true empty_store)).
Proof.
  apply (to_zarr_rerun_no_overwrite ex_file true empty_store _ 0 [1]).
  - vm_compute. reflexivity.
  - reflexivity.
Defined.

(** ** No cross-check of the per-level geometry *)

Lemma zarr_group_ok ow st : zarr_group ow st = (Ok tt, snd (zarr_group ow st)).
Proof. unfold zarr_group. destruct ow; [|destruct (st_group st)]; reflexivity. Qed.

(** The first loop index of an uneven [multiscales] is the first
    channel's level count, one past its last level. *)
Lemma level_dataset_past_end f ck0 cks l0 :
  channel_keys f = ck0 :: cks -> channel_levels f ck0 = Ok l0 ->
  exists e, level_dataset f l0 = Err e /\ (forall A, arrays f = Ok A -> e = IndexError).
Proof.
  intros Hck Hl0. unfold level_dataset.
  destruct (arrays f) as [A|e] eqn:HA; simpl.
  - destruct (py_index (tseries_keys f) 0) as [tk0|e] eqn:Ht; simpl.
    + assert (Hin : In ck0 (channel_keys f)) by (rewrite Hck; left; reflexivity).
      destruct (arrays_entry f A tk0 ck0 HA (py_index_in _ _ _ Ht) Hin)
        as [row [lv [Hrow [Hlv Hll]]]].
      rewrite Hrow. simpl. rewrite Hck. simpl. rewrite Hlv. simpl.
      pose proof (level_list_length _ _ _ _ Hll) as E.
      rewrite Hl0 in E. injection E as ->.
      rewrite py_index_out by lia. simpl.
      exists IndexError. split; [reflexivity | auto].
    + exists e. split; [reflexivity|]. intros _ _. exact (py_index_err _ _ _ Ht).
  - exists e. split; [reflexivity|]. intros A' H. discriminate H.
Qed.

Lemma write_slice_ok i t c d s a T C :
  lookup_arr i (st_arrays s) = Some a -> za_shape a = T :: C :: ds_shape d ->
  (t < T)%nat -> (c < C)%nat ->
  exists s', write_slice i t c d s = (Ok tt, s') /\ keeps s s' /\
    (forall j b, lookup_arr j (st_arrays s') = Some b ->
                 exists b0, lookup_arr j (st_arrays s) = Some b0).
Proof.
  intros Ha Hs Ht Hc. unfold write_slice. rewrite Ha, Hs. simpl.
  replace (Nat.ltb t T) with true by (symmetry; apply Nat.ltb_lt; exact Ht).
  replace (Nat.ltb c C) with true by (symmetry; apply Nat.ltb_lt; exact Hc).
  simpl. destruct (list_eq_dec Nat.eq_dec (ds_shape d) (ds_shape d)) as [_|N]; [|congruence].
  eexists. split; [reflexivity|]. split.
  - split; [reflexivity|]. intros j b Hj. simpl. rewrite lookup_replace, Hj.
    destruct (Nat.eqb_spec j i) as [->|]; [|eauto].
    rewrite Ha in Hj. injection Hj as <-. eexists; repeat split. simpl. congruence.
  - intros j b Hj. simpl in Hj. rewrite lookup_replace in Hj.
    destruct (Nat.eqb j i); [|eauto].
    destruct (lookup_arr j (st_arrays s)); [eauto | discriminate].
Qed.


(** ** Further properties of discovery and of the read path *)

Lemma prefix_char c k :
  String.prefix (String c EmptyString) k = true -> exists r, k = String c r.
Proof.
  destruct k as [|a r]; [discriminate|]. intros H. cbn [String.prefix] in H.
  destruct (Ascii.ascii_dec c a) as [<-|]; [eauto|discriminate].
Qed.

(** [channel_keys] and [tseries_keys] never share a key. *)
Theorem keys_disjoint f k :
  In k (channel_keys f) -> ~ In k (tseries_keys f).
Proof.
  unfold channel_keys, tseries_keys. rewrite !filter_In.
  intros [_ Hs] [_ Ht].
  destruct (prefix_char _ _ Hs) as [r1 ->]. destruct (prefix_char _ _ Ht) as [r2 E].
  discriminate E.
Qed.

Lemma keys_disjoint_witness : ~ In "s00" (tseries_keys ex_file).
Proof. apply (keys_disjoint ex_file). vm_compute. left; reflexivity. Defined.

Lemma Forall2_pairs_fst {V} (P : string -> V -> Prop) ks (S : list (string * V)) :
  Forall2 (fun k e => fst e = k /\ P k (snd e)) ks S ->
  map fst S = ks /\ forall e, In e S -> P (fst e) (snd e).
Proof.
  induction 1 as [|k e ks S [He HP] _ [IH1 IH2]]; simpl; [split; [reflexivity | tauto]|].
  split; [congruence|]. intros e' [<-|He']; [rewrite He; exact HP | auto].
Qed.

(** The shape of [self.arrays]: its keys are the time points in discovery
    order, each inner dict is keyed by the channels in discovery order,
    and each channel's list has as many datasets as the channel has
    levels. *)
Theorem arrays_structure f A :
  arrays f = Ok A ->
  map fst A = tseries_keys f /\
  forall tk row, In (tk, row) A ->
    map fst row = channel_keys f /\
    forall ck lv, In (ck, lv) row -> channel_levels f ck = Ok (List.length lv).
Proof.
  intros HA. rewrite arrays_unfold in HA.
  destruct (Forall2_pairs_fst (fun k v => arrays_row f k = Ok v) _ _
              (mapM_pairs _ (arrays_row f) (arrays_pair f) _ _ HA))
    as [H1 H2].
  split; [exact H1|]. intros tk row Hin.
  specialize (H2 _ Hin). simpl in H2.
  destruct (Forall2_pairs_fst (fun k v => level_list f tk k = Ok v) _ _
              (mapM_pairs _ (level_list f tk) (arrays_row_pair f tk) _ _ H2)) as [G1 G2].
  split; [exact G1|]. intros ck lv Hl.
  exact (level_list_length _ _ _ _ (G2 _ Hl)).
Qed.

Lemma arrays_structure_witness :
  map fst (match arrays ex_file with Ok A => A | Err _ => [] end) = tseries_keys ex_file.
Proof. exact (proj1 (arrays_structure ex_file _ eq_refl)). Defined.

Lemma mapM_all_ok {A B} (g : A -> result B) l :
  (forall x, In x l -> exists b, g x = Ok b) -> exists l', mapM g l = Ok l'.
Proof.
  induction l as [|x l IH]; intros H; simpl; [eauto|].
  destruct (H x (or_introl eq_refl)) as [b Hb]. rewrite Hb. simpl.
  destruct IH as [l' Hl']; [intros; apply H; right; assumption|].
  rewrite Hl'. simpl. eauto.
Qed.

(** [self.arrays] is built exactly when, for every discovered time point
    and channel, the channel's level count can be read and every level
    [<t>/<c>/<i>/cells] exists.  With no time point (or no channel) it is
    built whatever the metadata. *)
Theorem arrays_ok_iff f :
  (exists A, arrays f = Ok A) <->
  (forall tk ck, In tk (tseries_keys f) -> In ck (channel_keys f) ->
     exists lv, level_list f tk ck = Ok lv).
Proof.
  split.
  - intros [A HA] tk ck Htk Hck.
    destruct (arrays_entry f A tk ck HA Htk Hck) as [_ [lv [_ [_ Hl]]]]. eauto.
  - intros H. rewrite arrays_unfold. apply mapM_all_ok. intros tk Htk.
    unfold arrays_row.
    destruct (mapM_all_ok (fun ch => n <- channel_levels f ch ;;
                                     lv <- mapM (h5_cells f tk ch) (seq 0 n) ;;
                                     Ok (ch, lv)) (channel_keys f)) as [row Hrow].
    + intros ck Hck. destruct (H tk ck Htk Hck) as [lv Hl].
      unfold level_list in Hl. destruct (channel_levels f ck) as [n|e]; [|discriminate].
      simpl in *. rewrite Hl. simpl. eauto.
    + rewrite Hrow. simpl. eauto.
Qed.

Lemma arrays_ok_iff_witness : exists A, arrays ex_empty = Ok A.
Proof. apply (proj2 (arrays_ok_iff ex_empty)). intros tk ck [] _. Defined.

Lemma mapM_err {A B} (g : A -> result B) l x e :
  In x l -> g x = Err e -> exists e', mapM g l = Err e'.
Proof.
  induction l as [|y l IH]; simpl; [contradiction|]. intros [<-|Hx] Hg.
  - rewrite Hg. simpl. eauto.
  - destruct (g y) as [b|e1]; simpl; [|eauto].
    destruct (IH Hx Hg) as [e' ->]. simpl. eauto.
Qed.

(** One missing dataset anywhere in the container makes every read fail:
    if, for some discovered time point [tk'] and channel [ck'] with [n]
    levels, the member [<tk'>/<ck'>/<i>/cells] of a level [i < n] cannot
    be reached, then [__getitem__] raises for every time and channel
    position that resolves, whatever level and slices are asked for. *)
Theorem getitem_missing_dataset f res t ch z y x tk ck tk' ck' n i e' :
  In tk' (tseries_keys f) -> In ck' (channel_keys f) ->
  channel_levels f ck' = Ok n -> (i < n)%nat -> h5_cells f tk' ck' i = Err e' ->
  py_index (tseries_keys f) t = Ok tk -> py_index (channel_keys f) ch = Ok ck ->
  exists e, getitem f res t ch z y x = Err e.
Proof.
  intros Htk' Hck' Hn Hi Hc Ht Hch.
  destruct (arrays f) as [A|e] eqn:HA.
  - exfalso.
    destruct (arrays_entry f A tk' ck' HA Htk' Hck') as [_ [lv [_ [_ Hll]]]].
    unfold level_list in Hll. rewrite Hn in Hll. simpl in Hll.
    assert (Hin : In i (seq 0 n)) by (apply in_seq; lia).
    destruct (mapM_err (h5_cells f tk' ck') _ _ _ Hin Hc) as [e2 He2].
    congruence.
  - exists e. unfold getitem. rewrite Ht, Hch. simpl. rewrite HA. reflexivity.
Qed.

Lemma getitem_missing_dataset_witness :
  exists e, getitem ex_missing 0 0 0 full_slice full_slice full_slice = Err e.
Proof.
  apply (getitem_missing_dataset ex_missing 0 0 0 _ _ _ "t00000" "s00" "t00000" "s01" 2 1
           KeyError); try reflexivity.
  - vm_compute. left; reflexivity.
  - vm_compute. right; left; reflexivity.
  - lia.
Defined.

(** ** Further properties of [to_zarr] *)

Section Steps.
Variable R : store -> store -> Prop.
Hypothesis R_refl : forall s, R s s.
Hypothesis R_trans : forall s1 s2 s3, R s1 s2 -> R s2 s3 -> R s1 s3.

(** A relation every step keeps, whatever its outcome, holds across a
    bind and across a loop, also when they fail half-way. *)
Lemma mbind_rel {A B} (m : M A) (k : A -> M B) s r s' :
  (forall r1 s1 s2, m s1 = (r1, s2) -> R s1 s2) ->
  (forall a r1 s1 s2, k a s1 = (r1, s2) -> R s1 s2) ->
  mbind m k s = (r, s') -> R s s'.
Proof.
  intros Hm Hk. unfold mbind. destruct (m s) as [[a|e] s1] eqn:E; intros H.
  - eapply R_trans; [exact (Hm _ _ _ E) | exact (Hk _ _ _ _ H)].
  - inversion H; subst. exact (Hm _ _ _ E).
Qed.

Lemma forM_rel_any {A} (l : list A) body s r s' :
  (forall x r1 s1 s2, In x l -> body x s1 = (r1, s2) -> R s1 s2) ->
  forM l body s = (r, s') -> R s s'.
Proof.
  revert s r s'; induction l as [|x l IH]; simpl; intros s r s' Hb H.
  - inversion H; subst. apply R_refl.
  - eapply mbind_rel; [| |exact H].
    + intros r1 s1 s2 E. eapply Hb; [left; reflexivity | exact E].
    + intros u r1 s1 s2 E. eapply IH; [|exact E]. intros; eapply Hb; [right|]; eauto.
Qed.
End Steps.

(** [s'] holds the same arrays as [s] under every name but [x]. *)
Definition others_same (x : nat) (s s' : store) : Prop :=
  forall j, j <> x -> lookup_arr j (st_arrays s') = lookup_arr j (st_arrays s).

Lemma others_same_refl x s : others_same x s s.
Proof. intros j _. reflexivity. Qed.

Lemma others_same_trans x s1 s2 s3 :
  others_same x s1 s2 -> others_same x s2 s3 -> others_same x s1 s3.
Proof. intros H1 H2 j Hj. rewrite (H2 j Hj). exact (H1 j Hj). Qed.

Lemma empty_like_others x sh ch s r s' :
  empty_like x sh ch s = (r, s') -> others_same x s s'.
Proof.
  unfold empty_like. destruct (lookup_arr x (st_arrays s)); intros H; inversion H; subst.
  - apply others_same_refl.
  - intros j Hj. simpl. destruct (Nat.eqb_spec j x); [contradiction | reflexivity].
Qed.

Lemma write_slice_others x t c d s r s' :
  write_slice x t c d s = (r, s') -> others_same x s s'.
Proof.
  unfold write_slice. destruct (lookup_arr x (st_arrays s)) as [a|].
  2:{ intros H; inversion H; subst; apply others_same_refl. }
  destruct (negb _). { intros H; inversion H; subst; apply others_same_refl. }
  destruct (list_eq_dec _ _ _); intros H; inversion H; subst; [|apply others_same_refl].
  intros j Hj. simpl. rewrite lookup_replace.
  destruct (Nat.eqb_spec j x); [contradiction | reflexivity].
Qed.

Lemma level_body_others f x s r s' :
  level_body f x s = (r, s') -> others_same x s s'.
Proof.
  rewrite level_body_eq.
  destruct (level_dataset f x) as [d|e].
  2:{ intros H; inversion H; subst; apply others_same_refl. }
  destruct (unpack_chunks (ds_chunks d)) as [ch|e].
  2:{ intros H; inversion H; subst; apply others_same_refl. }
  unfold level_write. intros H.
  eapply (mbind_rel (others_same x) (others_same_trans x)); [| |exact H].
  - intros r1 s1 s2 E. exact (empty_like_others _ _ _ _ _ _ E).
  - intros u r1 s1 s2 E.
    eapply (forM_rel_any (others_same x) (others_same_refl x) (others_same_trans x));
      [|exact E].
    intros t r2 s3 s4 _ Et.
    eapply (forM_rel_any (others_same x) (others_same_refl x) (others_same_trans x));
      [|exact Et].
    intros c r3 s5 s6 _ Ec. exact (write_slice_others _ _ _ _ _ _ _ Ec).
Qed.

Lemma zarr_group_keep_arrays st :
  st_arrays (snd (zarr_group false st)) = st_arrays st.
Proof. unfold zarr_group. destruct (st_group st); reflexivity. Qed.

(** With [overwrite=False], [to_zarr] never touches an array stored under a
    name that is not one of the levels of [multiscales]: whether the run
    succeeds or fails, such an array is still there, unchanged (and a
    missing one is still missing). *)
Theorem to_zarr_keeps_foreign f st r st' j :
  to_zarr f false st = (r, st') ->
  (forall ms, multiscales f = Ok ms -> ~ In j ms) ->
  lookup_arr j (st_arrays st') = lookup_arr j (st_arrays st).
Proof.
  intros H Hj. unfold to_zarr in H. unfold mbind at 1 in H. rewrite zarr_group_ok in H.
  rewrite <- (zarr_group_keep_arrays st).
  set (s1 := snd (zarr_group false st)) in *.
  cbn [mbind lift] in H. destruct (multiscales f) as [ms|e] eqn:Em.
  - specialize (Hj ms eq_refl).
    set (Rj := fun s s' : store => lookup_arr j (st_arrays s') = lookup_arr j (st_arrays s)).
    change (Rj s1 st').
    eapply (forM_rel_any Rj); [| | |exact H].
    + intros s. reflexivity.
    + intros a b c E1 E2. unfold Rj in *. congruence.
    + intros x r1 s2 s3 Hx E. apply (level_body_others _ _ _ _ _ E).
      intros ->. contradiction.
  - inversion H; subst. reflexivity.
Qed.

Definition ex_foreign : store :=
  {| st_group := true;
     st_arrays := [(5, {| za_shape := [1]; za_chunks := [1]; za_data := [[None]] |})] |}.

Lemma to_zarr_keeps_foreign_witness :
  lookup_arr 5 (st_arrays (snd (to_zarr ex_file false ex_foreign)))
  = lookup_arr 5 (st_arrays ex_foreign).
Proof.
  apply (to_zarr_keeps_foreign ex_file ex_foreign (fst (to_zarr ex_file false ex_foreign))).
  - apply surjective_pairing.
  - intros ms Hm. vm_compute in Hm. injection Hm as <-. simpl. lia.
Defined.

Lemma level_body_fresh f x s s' :
  level_body f x s = (Ok tt, s') -> lookup_arr x (st_arrays s) = None.
Proof.
  rewrite level_body_eq.
  destruct (level_dataset f x) as [d|e]; [|discriminate].
  destruct (unpack_chunks (ds_chunks d)) as [ch|e]; [|discriminate].
  unfold level_write. intros H. inv_ok.
  exact (proj1 (empty_like_ok _ _ _ _ _ _ Ha)).
Qed.

Lemma level_body_exists f x s s' :
  level_body f x s = (Ok tt, s') -> exists a, lookup_arr x (st_arrays s') = Some a.
Proof.
  rewrite level_body_eq.
  destruct (level_dataset f x) as [d|e]; [|discriminate].
  destruct (unpack_chunks (ds_chunks d)) as [ch|e]; [|discriminate].
  intros H. destruct (level_write_geometry _ _ _ _ _ _ H) as [a [Ha _]]. eauto.
Qed.

(** The arrays of [s'] are those of [s] and arrays named in [ms]. *)
Definition names_within (ms : list nat) (s s' : store) : Prop :=
  forall j a, lookup_arr j (st_arrays s') = Some a ->
    (exists b, lookup_arr j (st_arrays s) = Some b) \/ In j ms.

Lemma names_within_refl ms s : names_within ms s s.
Proof. intros j a H. left. eauto. Qed.

Lemma names_within_trans ms s1 s2 s3 :
  names_within ms s1 s2 -> names_within ms s2 s3 -> names_within ms s1 s3.
Proof.
  intros H1 H2 j a H. destruct (H2 j a H) as [[b Hb]|Hj]; [exact (H1 j b Hb) | auto].
Qed.

(** With [overwrite=True], a successful [to_zarr] leaves exactly one array
    per level of [multiscales] in the store and nothing else. *)
Theorem to_zarr_overwrite_names f st st' ms j :
  to_zarr f true st = (Ok tt, st') -> multiscales f = Ok ms ->
  ((exists a, lookup_arr j (st_arrays st') = Some a) <-> In j ms).
Proof.
  intros H Hms.
  destruct (to_zarr_steps _ _ _ _ H) as [s1 [ms' [Hg [Hms' Hf]]]].
  rewrite Hms in Hms'. injection Hms' as <-.
  unfold zarr_group in Hg. injection Hg as <-.
  split.
  - intros [a Ha].
    assert (N : names_within ms {| st_group := true; st_arrays := [] |} st').
    { eapply (forM_rel (names_within ms) (names_within_refl ms) (names_within_trans ms));
        [|exact Hf].
      intros x s1 s2 Hx Hb j' a' Ha'.
      destruct (Nat.eq_dec j' x) as [->|Hne]; [right; exact Hx|].
      left. rewrite (level_body_others _ _ _ _ _ Hb j' Hne) in Ha'. eauto. }
    destruct (N j a Ha) as [[b Hb]|Hj]; [discriminate Hb | exact Hj].
  - intros Hj.
    destruct (forM_each keeps keeps_refl keeps_trans ms (level_body f) _ st'
                (fun x s s' _ Hx => level_body_keeps f x s s' Hx) Hf j Hj)
      as [s2 [s3 [Hb [_ K]]]].
    destruct (level_body_exists _ _ _ _ Hb) as [a Ha].
    destruct (K _ _ Ha) as [a' [Ha' _]]. eauto.
Qed.

Lemma to_zarr_overwrite_names_witness :
  (exists a, lookup_arr 1 (st_arrays (snd (to_zarr ex_file true empty_store))) = Some a)
  <-> In 1 [0; 1].
Proof.
  apply (to_zarr_overwrite_names ex_file empty_store).
  - vm_compute. reflexivity.
  - reflexivity.
Defined.

(** *** Blocks written by the loops of one level *)

Lemma length_list_set {A} (l : list A) n v : List.length (list_set l n v) = List.length l.
Proof. revert n; induction l as [|x l IH]; intros [|n]; simpl; auto. Qed.

Lemma nth_error_list_set {A} (l : list A) n v m :
  nth_error (list_set l n v) m =
  if Nat.eqb n m then option_map (fun _ => v) (nth_error l m) else nth_error l m.
Proof.
  revert n m; induction l as [|x l IH]; intros n m.
  - destruct n, m; simpl; try reflexivity; destruct (Nat.eqb _ _); reflexivity.
  - destruct n, m; simpl; try reflexivity. apply IH.
Qed.

Lemma Forall_list_set {A} (P : A -> Prop) l n v :
  Forall P l -> P v -> Forall P (list_set l n v).
Proof.
  revert n; induction l as [|x l IH]; intros [|n] Hl Hv; simpl; auto;
    inversion Hl; subst; constructor; auto.
Qed.

Lemma grid_set D T C t c x :
  grid_ok D T C -> (t < T)%nat -> (c < C)%nat ->
  let D' := list_set D t (list_set (nth t D []) c x) in
  grid_ok D' T C /\ grid_block D' t c = Some x /\
  (forall t' c', (t' <> t \/ c' <> c) -> grid_block D' t' c' = grid_block D t' c').
Proof.
  intros [HL HF] Ht Hc D'.
  assert (Hrow : List.length (nth t D []) = C).
  { rewrite Forall_forall in HF. apply HF. apply nth_In. lia. }
  assert (Hnt : nth_error D t = Some (nth t D [])) by (apply nth_error_nth'; lia).
  split; [|split].
  - split; [unfold D'; rewrite length_list_set; exact HL|].
    apply Forall_list_set; [exact HF|]. rewrite length_list_set. exact Hrow.
  - unfold grid_block, D'. rewrite nth_error_list_set, Nat.eqb_refl, Hnt. simpl.
    rewrite nth_error_list_set, Nat.eqb_refl.
    rewrite (nth_error_nth' _ None) by lia. reflexivity.
  - intros t' c' Hne. unfold grid_block, D'. rewrite nth_error_list_set.
    destruct (Nat.eqb_spec t t') as [<-|]; [|reflexivity].
    rewrite Hnt. simpl. rewrite nth_error_list_set.
    destruct (Nat.eqb_spec c c'); [lia | reflexivity].
Qed.

Lemma write_slice_succ i t c d s s' :
  write_slice i t c d s = (Ok tt, s') ->
  exists a, lookup_arr i (st_arrays s) = Some a /\
    (t < nth 0 (za_shape a) 0)%nat /\ (c < nth 1 (za_shape a) 0)%nat /\
    lookup_arr i (st_arrays s') =
      Some {| za_shape := za_shape a; za_chunks := za_chunks a;
              za_data := list_set (za_data a) t
                           (list_set (nth t (za_data a) []) c (Some (ds_data d))) |}.
Proof.
  unfold write_slice. destruct (lookup_arr i (st_arrays s)) as [a|] eqn:E; [|discriminate].
  destruct (Nat.ltb_spec t (nth 0 (za_shape a) 0)) as [Ht|Ht]; [|discriminate].
  destruct (Nat.ltb_spec c (nth 1 (za_shape a) 0)) as [Hc|Hc]; [|discriminate].
  simpl. destruct (list_eq_dec _ _ _); [|discriminate].
  intros Hw; inversion Hw; subst; clear Hw. exists a. repeat split; try assumption.
  simpl. rewrite lookup_replace, Nat.eqb_refl, E. reflexivity.
Qed.

Lemma forM_seq_inv (P : nat -> store -> Prop) body start len s s' :
  forM (seq start len) body s = (Ok tt, s') -> P start s ->
  (forall k s1 s2, (start <= k < start + len)%nat -> P k s1 ->
     body k s1 = (Ok tt, s2) -> P (S k) s2) ->
  P (start + len)%nat s'.
Proof.
  revert start s; induction len as [|len IH]; simpl; intros start s H H0 Hs.
  - inversion H; subst. rewrite Nat.add_0_r. exact H0.
  - inv_ok. destruct a.
    replace (start + S len)%nat with (S start + len)%nat by lia.
    apply (IH (S start) s0 H); [eapply Hs; [lia | exact H0 | exact Ha]|].
    intros k s1 s2 Hk. apply Hs. lia.
Qed.

(** Array [i] exists with outer extent T x C, and the blocks before
    position (t, k) in row-major order hold [x]. *)
Definition filled_upto (i T C : nat) (sh : list nat) (x : option ndarray)
    (t k : nat) (s : store) : Prop :=
  exists a, lookup_arr i (st_arrays s) = Some a /\ za_shape a = T :: C :: sh /\
    grid_ok (za_data a) T C /\
    forall t' c', (t' < T)%nat -> (c' < C)%nat -> ((t' < t)%nat \/ (t' = t /\ c' < k)%nat) ->
      grid_block (za_data a) t' c' = Some x.

Lemma write_slice_fills i T C d t k s1 s2 :
  (t < T)%nat -> (k < C)%nat ->
  filled_upto i T C (ds_shape d) (Some (ds_data d)) t k s1 ->
  write_slice i t k d s1 = (Ok tt, s2) ->
  filled_upto i T C (ds_shape d) (Some (ds_data d)) t (S k) s2.
Proof.
  intros Ht Hk [a [Ha [Hs [Hg Hb]]]] Hw.
  destruct (write_slice_succ _ _ _ _ _ _ Hw) as [a0 [Ha0 [_ [_ Ha']]]].
  rewrite Ha in Ha0. injection Ha0 as <-.
  destruct (grid_set (za_data a) T C t k (Some (ds_data d)) Hg Ht Hk) as [G' [B1 B2]].
  eexists. split; [exact Ha'|]. simpl. split; [exact Hs|]. split; [exact G'|].
  intros t' c' Ht' Hc' Hlt.
  destruct (Nat.eq_dec t' t) as [->|Hne1]; [destruct (Nat.eq_dec c' k) as [->|Hne2]|].
  - exact B1.
  - rewrite B2 by auto. apply Hb; [assumption|assumption|]. lia.
  - rewrite B2 by auto. apply Hb; [assumption|assumption|]. lia.
Qed.

Lemma level_write_blocks f i d ch s s' :
  level_write f i d ch s = (Ok tt, s') ->
  exists a, lookup_arr i (st_arrays s') = Some a /\
    forall t c, (t < num_tseries f)%nat -> (c < num_channels f)%nat ->
      grid_block (za_data a) t c = Some (Some (ds_data d)).
Proof.
  unfold level_write. intros H. inv_ok. destruct a.
  set (T := num_tseries f) in *. set (C := num_channels f) in *.
  assert (F0 : filled_upto i T C (ds_shape d) (Some (ds_data d)) 0 0 s0).
  { unfold empty_like in Ha. destruct (lookup_arr i (st_arrays s)); [discriminate|].
    inversion Ha; subst; clear Ha. eexists. simpl. rewrite Nat.eqb_refl.
    split; [reflexivity|]. split; [reflexivity|]. split.
    - split; [apply repeat_length|]. apply Forall_forall. intros row Hr.
      apply repeat_spec in Hr. subst row. apply repeat_length.
    - intros t' c' _ _ Hlt. lia. }
  clear Ha.
  assert (HT : filled_upto i T C (ds_shape d) (Some (ds_data d)) (0 + T) 0 s').
  { apply (forM_seq_inv (fun t s => filled_upto i T C (ds_shape d) (Some (ds_data d)) t 0 s)
             _ 0 T s0 s' H F0).
    intros t s1 s2 Ht F Hrow.
    assert (HC : filled_upto i T C (ds_shape d) (Some (ds_data d)) t (0 + C) s2).
    { apply (forM_seq_inv (fun k s => filled_upto i T C (ds_shape d) (Some (ds_data d)) t k s)
               _ 0 C s1 s2 Hrow F).
      intros k s3 s4 Hk F3 Hw.
      apply (write_slice_fills i T C d t k s3 s4); [lia|lia|exact F3|exact Hw]. }
    destruct HC as [a [Ha [Hs [Hg Hb]]]].
    exists a. split; [exact Ha|]. split; [exact Hs|]. split; [exact Hg|].
    intros t' c' Ht' Hc' Hlt. apply Hb; [assumption|assumption|]. lia. }
  destruct HT as [a [Ha [_ [_ Hb]]]].
  exists a. split; [exact Ha|]. intros t c Ht Hc. apply Hb; [assumption|assumption|]. lia.
Qed.

(** [s'] holds every array of [s] unchanged. *)
Definition fixes (i : nat) (s s' : store) : Prop :=
  forall a, lookup_arr i (st_arrays s) = Some a -> lookup_arr i (st_arrays s') = Some a.

Lemma fixes_refl i s : fixes i s s.
Proof. intros a H. exact H. Qed.

Lemma fixes_trans i s1 s2 s3 : fixes i s1 s2 -> fixes i s2 s3 -> fixes i s1 s3.
Proof. intros H1 H2 a H. auto. Qed.

Lemma level_body_fixes f x i s s' :
  level_body f x s = (Ok tt, s') -> fixes i s s'.
Proof.
  intros H a Ha. destruct (Nat.eq_dec i x) as [->|Hne].
  - rewrite (level_body_fresh _ _ _ _ H) in Ha. discriminate.
  - rewrite (level_body_others _ _ _ _ _ H i Hne). exact Ha.
Qed.

(** After a successful [to_zarr], no block of any level is left
    unwritten: every block (t, c) of the array of level [i] holds the
    contents of the representative dataset of that level. *)
Theorem to_zarr_blocks_filled f ow st st' ms i :
  to_zarr f ow st = (Ok tt, st') -> multiscales f = Ok ms -> In i ms ->
  exists d, representative f i = Ok d /\
    forall t c, (t < num_tseries f)%nat -> (c < num_channels f)%nat ->
      dest_block st' i t c = Some (Some (ds_data d)).
Proof.
  intros H Hms Hi.
  destruct (to_zarr_steps _ _ _ _ H) as [s1 [ms' [Hg [Hms' Hf]]]].
  rewrite Hms in Hms'. injection Hms' as <-.
  destruct (forM_each (fixes i) (fixes_refl i) (fixes_trans i) ms (level_body f) s1 st'
              (fun x s s' _ Hx => level_body_fixes f x i s s' Hx) Hf i Hi)
    as [s2 [s3 [Hb K]]].
  rewrite level_body_eq in Hb.
  destruct (level_dataset f i) as [d|e] eqn:Ed; [|discriminate].
  destruct (unpack_chunks (ds_chunks d)) as [ch|e]; [|discriminate].
  destruct (level_write_blocks _ _ _ _ _ _ Hb) as [a [Ha Hblk]].
  exists d. split; [exact (level_dataset_representative _ _ _ Ed)|].
  intros t c Ht Hc. unfold dest_block. rewrite (K _ Ha).
  exact (Hblk t c Ht Hc).
Qed.

Lemma to_zarr_blocks_filled_witness :
  exists d, representative ex_file 1 = Ok d /\
    forall t c, (t < num_tseries ex_file)%nat -> (c < num_channels ex_file)%nat ->
      dest_block (snd (to_zarr ex_file true empty_store)) 1 t c = Some (Some (ds_data d)).
Proof.
  apply (to_zarr_blocks_filled ex_file true empty_store _ [0; 1] 1).
  - vm_compute. reflexivity.
  - reflexivity.
  - right; left; reflexivity.
Defined.

(** ** What the subdivisions tables feed *)

Lemma mapM_ext_in {A B} (g g' : A -> result B) l :
  (forall x, In x l -> g x = g' x) -> mapM g l = mapM g' l.
Proof.
  induction l as [|x l IH]; simpl; intros H; [reflexivity|].
  rewrite (H x (or_introl eq_refl)), IH by (intros; apply H; right; assumption).
  reflexivity.
Qed.

Lemma forM_ext {A} (l : list A) (b b' : A -> M unit) s :
  (forall x s1, In x l -> b x s1 = b' x s1) -> forM l b s = forM l b' s.
Proof.
  revert s; induction l as [|x l IH]; simpl; intros s H; [reflexivity|].
  unfold mbind. rewrite (H x s (or_introl eq_refl)).
  destruct (b' x s) as [[u|e] s1]; [|reflexivity].
  apply IH. intros; apply H; right; assumption.
Qed.

Section SameButSubdivisions.
Variables f f' : h5file.
Hypothesis Hf : same_but_subdivisions f f'.

Lemma sbs_keys : h5_keys f = h5_keys f'.
Proof.
  unfold h5_keys. induction Hf as [|e e' l l' [He _] Hl IH]; simpl; [reflexivity|].
  rewrite He, (IH Hl). reflexivity.
Qed.

Lemma sbs_channel_keys : channel_keys f = channel_keys f'.
Proof. unfold channel_keys. rewrite sbs_keys. reflexivity. Qed.

Lemma sbs_tseries_keys : tseries_keys f = tseries_keys f'.
Proof. unfold tseries_keys. rewrite sbs_keys. reflexivity. Qed.

Lemma sbs_num_channels : num_channels f = num_channels f'.
Proof. unfold num_channels. rewrite sbs_channel_keys. reflexivity. Qed.

Lemma sbs_num_tseries : num_tseries f = num_tseries f'.
Proof. unfold num_tseries. rewrite sbs_tseries_keys. reflexivity. Qed.

Lemma sbs_assoc k :
  (assoc k f = assoc k f') \/
  (String.prefix "s" k = true /\
   exists m m', assoc k f = Some (H5Group m) /\ assoc k f' = Some (H5Group m') /\
                forall k', k' <> "subdivisions" -> assoc k' m = assoc k' m').
Proof.
  induction Hf as [|[k1 n1] [k2 n2] l l' [He Hn] Hl IH]; simpl in *; [left; reflexivity|].
  subst k2. destruct (String.eqb k k1) eqn:E; [|exact (IH Hl)].
  apply String.eqb_eq in E. subst k1.
  destruct Hn as [<-|[Hp [m [m' [-> [-> Hm]]]]]]; [left; reflexivity|].
  right. split; [exact Hp|]. eauto 6.
Qed.

Lemma sbs_get_time k :
  String.prefix "s" k = false -> h5_get (h5_root f) k = h5_get (h5_root f') k.
Proof.
  intros Hk. unfold h5_root, h5_get, dict_get.
  destruct (sbs_assoc k) as [->|[Hp _]]; [reflexivity | congruence].
Qed.

Lemma sbs_get_member k k' :
  k' <> "subdivisions" ->
  (g <- h5_get (h5_root f) k ;; h5_get g k') =
  (g <- h5_get (h5_root f') k ;; h5_get g k').
Proof.
  intros Hk'. unfold h5_root, h5_get at 1 3, dict_get.
  destruct (sbs_assoc k) as [->|[_ [m [m' [-> [-> Hm]]]]]]; [reflexivity|].
  simpl. unfold dict_get. rewrite (Hm k' Hk'). reflexivity.
Qed.

Lemma sbs_scales : scales f = scales f'.
Proof.
  unfold scales. rewrite sbs_channel_keys. apply mapM_ext_in. intros c _.
  pose proof (sbs_get_member c "resolutions" ltac:(discriminate)) as E.
  destruct (h5_get (h5_root f) c) as [g|e], (h5_get (h5_root f') c) as [g'|e'];
    cbn [rbind] in *; first [injection E as ->; reflexivity | rewrite E; reflexivity | rewrite <- E; reflexivity].
Qed.

Lemma sbs_multiscales : multiscales f = multiscales f'.
Proof. unfold multiscales. rewrite sbs_scales. reflexivity. Qed.

Lemma sbs_channel_levels ch : channel_levels f ch = channel_levels f' ch.
Proof. unfold channel_levels. rewrite sbs_scales. reflexivity. Qed.

Lemma sbs_arrays : arrays f = arrays f'.
Proof.
  rewrite !arrays_unfold, sbs_tseries_keys. apply mapM_ext_in. intros ts Hts.
  assert (Ht : String.prefix "s" ts = false).
  { unfold tseries_keys in Hts. apply filter_In in Hts. destruct Hts as [_ Ht].
    destruct (prefix_char _ _ Ht) as [r ->]. reflexivity. }
  unfold arrays_row. rewrite sbs_channel_keys.
  rewrite (mapM_ext_in _ (fun ch => n <- channel_levels f' ch ;;
                                    lv <- mapM (h5_cells f' ts ch) (seq 0 n) ;;
                                    Ok (ch, lv))); [reflexivity|].
  intros ch _. rewrite sbs_channel_levels.
  destruct (channel_levels f' ch) as [n|e]; simpl; [|reflexivity].
  rewrite (mapM_ext_in (h5_cells f ts ch) (h5_cells f' ts ch)); [reflexivity|].
  intros i _. unfold h5_cells. rewrite (sbs_get_time ts Ht). reflexivity.
Qed.

Lemma sbs_level_body i s : level_body f i s = level_body f' i s.
Proof.
  unfold level_body.
  rewrite sbs_arrays, sbs_tseries_keys, sbs_channel_keys, sbs_num_tseries, sbs_num_channels.
  reflexivity.
Qed.

End SameButSubdivisions.

(** [to_zarr] and [__getitem__] never read the channels' [subdivisions]
    tables (only [chunk_sizes] does): two containers that differ only in
    those members give the same reads, and [to_zarr] gives the same
    outcome and the same store on them. *)
Theorem subdivisions_unused f f' ow st res t ch z y x :
  same_but_subdivisions f f' ->
  to_zarr f ow st = to_zarr f' ow st /\
  getitem f res t ch z y x = getitem f' res t ch z y x.
Proof.
  intros Hf. split.
  - unfold to_zarr, mbind at 1 3. destruct (zarr_group ow st) as [[u|e] s1]; [|reflexivity].
    cbn [mbind lift]. rewrite (sbs_multiscales f f' Hf).
    destruct (multiscales f') as [ms|e]; [|reflexivity].
    apply forM_ext. intros i s2 _. exact (sbs_level_body f f' Hf i s2).
  - unfold getitem.
    rewrite (sbs_tseries_keys f f' Hf), (sbs_channel_keys f f' Hf), (sbs_arrays f f' Hf).
    reflexivity.
Qed.

Lemma subdivisions_unused_witness :
  chunk_sizes ex_nosub = Err KeyError /\
  fst (to_zarr ex_nosub true empty_store) = Ok tt /\
  to_zarr ex_file true empty_store = to_zarr ex_nosub true empty_store /\
  getitem ex_file 0 0 1 full_slice full_slice full_slice
  = getitem ex_nosub 0 0 1 full_slice full_slice full_slice.
Proof.
  assert (H : same_but_subdivisions ex_file ex_nosub).
  { unfold same_but_subdivisions, ex_nosub, ex_file. simpl.
    repeat apply Forall2_cons; [..|apply Forall2_nil].
    all: split; [reflexivity|].
    all: first [left; reflexivity | right; split; [reflexivity|]].
    all: do 2 eexists; split; [reflexivity|]; split; [reflexivity|].
    all: intros k Hk; simpl; destruct (String.eqb k "resolutions"); [reflexivity|].
    all: destruct (String.eqb_spec k "subdivisions"); [contradiction | reflexivity]. }
  destruct (subdivisions_unused ex_file ex_nosub true empty_store 0 0 1
              full_slice full_slice full_slice H) as [H1 H2].
  split; [reflexivity|]. split; [vm_compute; reflexivity|]. split; [exact H1 | exact H2].
Defined.

(** ** A failed conversion is not rolled back *)

Lemma forM_err_split {A} (l : list A) body s e s' :
  forM l body s = (Err e, s') ->
  exists pre x post s1, l = pre ++ x :: post /\
    forM pre body s = (Ok tt, s1) /\ body x s1 = (Err e, s').
Proof.
  revert s; induction l as [|y l IH]; simpl; intros s H; [discriminate|].
  unfold mbind in H. destruct (body y s) as [[u|e'] s1] eqn:Eb.
  - destruct (IH s1 H) as [pre [x [post [s2 [-> [Hp Hx]]]]]].
    exists (y :: pre), x, post, s2. split; [reflexivity|]. split; [|exact Hx].
    simpl. unfold mbind. rewrite Eb. destruct u. exact Hp.
  - inversion H; subst. exists [], y, l, s. split; [reflexivity|]. split; [reflexivity | exact Eb].
Qed.

Lemma level_body_present f x s r s' a :
  lookup_arr x (st_arrays s) = Some a -> level_body f x s = (r, s') -> s' = s.
Proof.
  intros Ha. rewrite level_body_eq.
  destruct (level_dataset f x) as [d|e]; [|intros H; inversion H; reflexivity].
  destruct (unpack_chunks (ds_chunks d)) as [ch|e]; [|intros H; inversion H; reflexivity].
  rewrite (level_write_exists f x d ch s a Ha). intros H; inversion H; reflexivity.
Qed.

(** When [to_zarr] with [overwrite=True] fails, the failure is not rolled
    back.  The run splits [multiscales] into [pre ++ x :: post]: the
    levels of [pre] all went through, the step of level [x] raised the
    error, and the levels of [post] were never started.  The arrays of
    all the levels of [pre] stay in the store, and the store holds no
    array other than these and possibly a partly written array [x]. *)
Theorem to_zarr_partial f st e st' ms :
  to_zarr f true st = (Err e, st') -> multiscales f = Ok ms ->
  exists pre x post s1, ms = pre ++ x :: post /\
    forM pre (level_body f) {| st_group := true; st_arrays := [] |} = (Ok tt, s1) /\
    level_body f x s1 = (Err e, st') /\
    (forall i, In i pre -> exists a, lookup_arr i (st_arrays st') = Some a) /\
    (forall j a, lookup_arr j (st_arrays st') = Some a -> In j pre \/ j = x).
Proof.
  intros H Hms. unfold to_zarr, mbind at 1, zarr_group in H. cbn [mbind lift] in H.
  rewrite Hms in H.
  set (s0 := {| st_group := true; st_arrays := [] |}) in H.
  destruct (forM_err_split _ _ _ _ _ H) as [pre [x [post [s1 [Hl [Hp Hx]]]]]].
  exists pre, x, post, s1. split; [exact Hl|]. split; [exact Hp|]. split; [exact Hx|].
  split.
  - intros i Hi.
    destruct (forM_each keeps keeps_refl keeps_trans pre (level_body f) s0 s1
                (fun y s s' _ Hy => level_body_keeps f y s s' Hy) Hp i Hi)
      as [s2 [s3 [Hb [_ K]]]].
    destruct (level_body_exists _ _ _ _ Hb) as [a Ha].
    destruct (K _ _ Ha) as [a' Ha']. destruct Ha' as [Ha' _].
    destruct (Nat.eq_dec i x) as [->|Hne].
    + rewrite (level_body_present _ _ _ _ _ _ Ha' Hx). eauto.
    + rewrite (level_body_others _ _ _ _ _ Hx i Hne). eauto.
  - intros j a Ha.
    destruct (Nat.eq_dec j x) as [->|Hne]; [right; reflexivity|left].
    rewrite (level_body_others _ _ _ _ _ Hx j Hne) in Ha.
    assert (N : names_within pre s0 s1).
    { eapply (forM_rel (names_within pre) (names_within_refl pre) (names_within_trans pre));
        [|exact Hp].
      intros y s2 s3 Hy Hb j' a' Ha'.
      destruct (Nat.eq_dec j' y) as [->|Hne']; [right; exact Hy|].
      left. rewrite (level_body_others _ _ _ _ _ Hb j' Hne') in Ha'. eauto. }
    destruct (N j a Ha) as [[b Hb]|Hj]; [discriminate Hb | exact Hj].
Qed.

Lemma to_zarr_partial_witness :
  fst (to_zarr ex_contiguous true empty_store) = Err TypeError /\
  lookup_arr 0 (st_arrays (snd (to_zarr ex_contiguous true empty_store))) <> None /\
  exists pre x post s1, [0; 1] = pre ++ x :: post /\
    forM pre (level_body ex_contiguous) {| st_group := true; st_arrays := [] |} = (Ok tt, s1) /\
    level_body ex_contiguous x s1 = (Err TypeError, snd (to_zarr ex_contiguous true empty_store)) /\
    (forall i, In i pre ->
       exists a, lookup_arr i (st_arrays (snd (to_zarr ex_contiguous true empty_store))) = Some a) /\
    (forall j a, lookup_arr j (st_arrays (snd (to_zarr ex_contiguous true empty_store))) = Some a ->
       In j pre \/ j = x).
Proof.
  split; [vm_compute; reflexivity|]. split; [vm_compute; discriminate|].
  apply (to_zarr_partial ex_contiguous empty_store TypeError).
  - vm_compute. reflexivity.
  - reflexivity.
Defined.

(** ** More edge cases of the read path and of [to_zarr] *)

(** The resolution position of [__getitem__] also follows Python sequence
    indexing: [res] in [-n, -1], for a channel with [n] levels, reads level
    [n + res] ([-1] is the coarsest level). *)
Theorem getitem_negative_level f res t ch z y x tk ck n A :
  py_index (tseries_keys f) t = Ok tk -> py_index (channel_keys f) ch = Ok ck ->
  arrays f = Ok A -> channel_levels f ck = Ok n ->
  (- Z.of_nat n <= res <= -1)%Z ->
  getitem f res t ch z y x = direct_read f tk ck (Z.to_nat (Z.of_nat n + res)) z y x.
Proof.
  intros Ht Hc HA Hn Hr. unfold getitem. rewrite Ht, Hc. simpl. rewrite HA. simpl.
  destruct (arrays_entry f A tk ck HA (py_index_in _ _ _ Ht) (py_index_in _ _ _ Hc))
    as [row [lv [Hrow [Hlv Hll]]]].
  rewrite Hrow. simpl. rewrite Hlv. simpl.
  pose proof (level_list_length _ _ _ _ Hll) as E. rewrite Hn in E. injection E as ->.
  rewrite py_index_neg by exact Hr.
  destruct (py_index_range lv (Z.of_nat (List.length lv) + res)) as [v [Hv Hnth]]; [lia|].
  rewrite Hv. simpl. unfold direct_read.
  rewrite (level_list_nth _ _ _ _ _ _ Hll Hnth). reflexivity.
Qed.

Lemma getitem_negative_level_witness :
  getitem ex_file (-1) 0 1 full_slice full_slice full_slice
  = direct_read ex_file "t00000" "s01" 1 full_slice full_slice full_slice.
Proof.
  apply (getitem_negative_level ex_file (-1) 0 1 _ _ _ "t00000" "s01" 2
           (match arrays ex_file with Ok A => A | Err _ => [] end));
    try reflexivity.
  lia.
Defined.

(** A container without any channel converts to an empty root group:
    [multiscales] is empty, so [to_zarr] succeeds without creating an
    array. *)
Theorem to_zarr_no_channels f ow st :
  channel_keys f = [] -> to_zarr f ow st = (Ok tt, snd (zarr_group ow st)).
Proof.
  intros H.
  assert (Hm : multiscales f = Ok []) by (unfold multiscales, scales; rewrite H; reflexivity).
  unfold to_zarr. unfold mbind at 1. rewrite zarr_group_ok.
  cbn [mbind lift]. rewrite Hm. reflexivity.
Qed.

Lemma to_zarr_no_channels_witness :
  to_zarr ex_empty false empty_store = (Ok tt, snd (zarr_group false empty_store)).
Proof. apply to_zarr_no_channels. reflexivity. Defined.

(** A container with channel levels but no time point fails at the first
    level with IndexError ([self.tseries_keys[0]]), before any array is
    created. *)
Theorem to_zarr_no_timepoints f ow st i is :
  tseries_keys f = [] -> multiscales f = Ok (i :: is) ->
  to_zarr f ow st = (Err IndexError, snd (zarr_group ow st)).
Proof.
  intros Ht Hm.
  assert (Hd : level_dataset f i = Err IndexError).
  { unfold level_dataset. rewrite arrays_unfold, Ht. reflexivity. }
  unfold to_zarr. unfold mbind at 1. rewrite zarr_group_ok.
  cbn [mbind lift]. rewrite Hm. cbn [mbind lift forM]. unfold mbind at 1.
  rewrite level_body_eq, Hd. reflexivity.
Qed.

Lemma to_zarr_no_timepoints_witness :
  to_zarr ex_notime true empty_store = (Err IndexError, snd (zarr_group true empty_store)).
Proof. apply (to_zarr_no_timepoints ex_notime true empty_store 0 [1]); reflexivity. Defined.

(** When two channels report different level counts, [to_zarr] fails
    before creating any destination array (the store is as [zarr.group]
    left it), and the error is IndexError whenever [self.arrays] can be
    built: the first loop index of [multiscales] is then the first
    channel's level count, one past its last level. *)
Theorem to_zarr_uneven_levels f lens ow st :
  Forall2 (fun ck L => channel_levels f ck = Ok L) (channel_keys f) lens ->
  (exists a b, In a lens /\ In b lens /\ a <> b) ->
  exists e, to_zarr f ow st = (Err e, snd (zarr_group ow st)) /\
            (forall A, arrays f = Ok A -> e = IndexError).
Proof.
  intros HL Hab.
  pose proof (multiscales_distinct f lens HL Hab) as Hms.
  destruct (channel_keys f) as [|ck0 cks] eqn:Eck.
  { inversion HL; subst. destruct Hab as [a [_ [[] _]]]. }
  inversion HL as [|ck0' l0 cks' ls H0 HL']; subst.
  destruct (level_dataset_past_end f ck0 cks l0 Eck H0) as [e [He HeA]].
  exists e. split; [|exact HeA].
  unfold to_zarr. unfold mbind at 1. rewrite zarr_group_ok.
  cbn [mbind lift]. rewrite Hms. cbn [mbind lift forM]. unfold mbind at 1.
  rewrite level_body_eq, He. reflexivity.
Qed.

Lemma to_zarr_uneven_levels_witness :
  exists e, to_zarr ex_uneven false empty_store
            = (Err e, snd (zarr_group false empty_store)) /\
            (forall A, arrays ex_uneven = Ok A -> e = IndexError).
Proof.
  apply (to_zarr_uneven_levels ex_uneven [2; 1]).
  - repeat constructor.
  - exists 2, 1. simpl. split; [|split]; auto.
Defined.
